(** * The UI state controller of the blog theme ([js/main.js])

    [js/main.js] is a page-load script of three blocks.  The first one
    registers, when the viewport is at most 770 wide, a click handler on the
    menu button and a closing click listener on the body; the second one
    registers a scroll listener on the window that shows or hides the
    back-to-top element; the third one only selects the grid items.

    The script is embedded in a small state-and-exception monad over the
    state of the browser: the class lists of the elements, the registered
    listeners, the viewport width, the two scroll offsets and the stop
    propagation flag of the event being dispatched.  The three closures the
    script creates are represented by the constructors of [Fn], each one
    carrying the variables it captures; [call] gives their bodies.  The
    browser side (selectors, listener registration, event dispatch along the
    propagation path) follows the DOM standard as far as the script uses it.

    The viewport width is an integer.  A scroll offset is a number that may
    have a fraction, so the offsets are rationals; [Math.max] and [>] are
    exact on them.  An element is a [nat]; two selectors may give the same
    element, and a selector may give none.  [document.body] may be [null]
    when the scroll listener reads it, and then the read throws. *)

From Stdlib Require Import QArith Qcanon.
From stdpp Require Import base numbers strings list gmap.

#[local] Set Warnings "-clear-no-such-hyp".

Local Open Scope string_scope.
Local Open Scope list_scope.

(** ** The browser state *)

(** An element of the document.  A variable of the script holds an element or
    [null], that is an [option node]. *)
Definition node := nat.

(** The closures of [main.js], with the variables they capture. *)
Inductive Fn : Type :=
  | menuBtn_onclick (menuBtn nav : option node)   (* main.js, lines 14-23 *)
  | body_click (menuBtn nav : option node)        (* main.js, lines 24-27 *)
  | window_scroll (backToTop : option node).      (* main.js, lines 36-46 *)

Global Instance Fn_eq_dec : EqDecision Fn.
Proof. solve_decision. Defined.

(** A registered event listener: the event type, whether it was registered by
    assigning the [on<type>] property of the target, and the callback. *)
Record Listener : Type := mkListener {
  l_type : string;
  l_attr : bool;
  l_fn : Fn
}.

Global Instance Listener_eq_dec : EqDecision Listener.
Proof. solve_decision. Defined.

Record Host : Type := mkHost {
  innerWidth : Z;                          (* window.innerWidth *)
  documentElement_scrollTop : Qc;          (* document.documentElement.scrollTop *)
  body_scrollTop : option Qc;              (* document.body.scrollTop, or none
                                              when document.body is null *)
  classes : gmap node (gset string);       (* the classList of every element *)
  node_listeners : gmap node (list Listener);
  window_listeners : list Listener;
  stop_propagation : bool                  (* flag of the event in dispatch *)
}.

(** The document as the script sees it: the matches of a selector, in
    document order. *)
Record Document : Type := mkDocument {
  select : string → list node
}.

(** The class list of an element; an element without a [class] attribute has
    the empty one. *)
Definition classList (h : Host) (n : node) : gset string :=
  default ∅ (classes h !! n).

Definition listeners_of (h : Host) (n : node) : list Listener :=
  default [] (node_listeners h !! n).

Definition set_innerWidth (w : Z) (h : Host) : Host :=
  mkHost w (documentElement_scrollTop h) (body_scrollTop h) (classes h)
         (node_listeners h) (window_listeners h) (stop_propagation h).

Definition set_scrollTop (d : Qc) (b : option Qc) (h : Host) : Host :=
  mkHost (innerWidth h) d b (classes h)
         (node_listeners h) (window_listeners h) (stop_propagation h).

Definition set_classes (c : gmap node (gset string)) (h : Host) : Host :=
  mkHost (innerWidth h) (documentElement_scrollTop h) (body_scrollTop h) c
         (node_listeners h) (window_listeners h) (stop_propagation h).

Definition set_node_listeners (l : gmap node (list Listener)) (h : Host) : Host :=
  mkHost (innerWidth h) (documentElement_scrollTop h) (body_scrollTop h)
         (classes h) l (window_listeners h) (stop_propagation h).

Definition set_window_listeners (l : list Listener) (h : Host) : Host :=
  mkHost (innerWidth h) (documentElement_scrollTop h) (body_scrollTop h)
         (classes h) (node_listeners h) l (stop_propagation h).

Definition set_stop_propagation (b : bool) (h : Host) : Host :=
  mkHost (innerWidth h) (documentElement_scrollTop h) (body_scrollTop h)
         (classes h) (node_listeners h) (window_listeners h) b.

(** ** The monad of script code *)

Inductive exn : Type := TypeError.

Inductive result (A : Type) : Type :=
  | Ok (a : A)
  | Throw (e : exn).
Arguments Ok {A} a.
Arguments Throw {A} e.

Global Instance exn_eq_dec : EqDecision exn.
Proof. solve_decision. Defined.

Global Instance result_eq_dec {A} `{EqDecision A} : EqDecision (result A).
Proof. solve_decision. Defined.

(** A computation changes the browser state and returns or throws; what it
    did before throwing stays done. *)
Definition M (A : Type) : Type := Host → Host * result A.

Definition ret {A} (a : A) : M A := λ h, (h, Ok a).

Definition throw {A} (e : exn) : M A := λ h, (h, Throw e).

Definition bind {A B} (m : M A) (k : A → M B) : M B :=
  λ h, match m h with
       | (h', Ok a) => k a h'
       | (h', Throw e) => (h', Throw e)
       end.

Notation "x <- m ;; k" := (bind m (λ x, k))
  (at level 100, m at next level, right associativity).
Notation "m ;; k" := (bind m (λ _, k))
  (at level 100, right associativity).

Definition get {A} (f : Host → A) : M A := λ h, (h, Ok (f h)).

Definition modify (f : Host → Host) : M unit := λ h, (f h, Ok tt).

(** ** The DOM operations the script uses *)

(** [document.querySelectorAll(sel)] and [document.querySelector(sel)]: all
    the matches, and the first one or [null]. *)
Definition querySelectorAll (doc : Document) (sel : string) : M (list node) :=
  ret (select doc sel).

Definition querySelector (doc : Document) (sel : string) : M (option node) :=
  ret (head (select doc sel)).

(** Reading a property of [null] throws a [TypeError]. *)
Definition deref (el : option node) : M node :=
  match el with
  | Some n => ret n
  | None => throw TypeError
  end.

Definition classList_contains (el : option node) (c : string) : M bool :=
  n <- deref el ;;
  get (λ h, bool_decide (c ∈ classList h n)).

(** Adding a class that is there and removing one that is not change
    nothing: the class list is a set. *)
Definition add_class (n : node) (c : string) (h : Host) : Host :=
  set_classes (<[n := classList h n ∪ {[c]}]> (classes h)) h.

Definition remove_class (n : node) (c : string) (h : Host) : Host :=
  set_classes (<[n := classList h n ∖ {[c]}]> (classes h)) h.

Definition classList_add (el : option node) (c : string) : M unit :=
  n <- deref el ;;
  modify (add_class n c).

Definition classList_remove (el : option node) (c : string) : M unit :=
  n <- deref el ;;
  modify (remove_class n c).

(** [el.on<type> = f]: the listener of the property keeps the place of the
    property's previous listener when there is one, and is appended
    otherwise. *)
Fixpoint set_attr_listener (ty : string) (f : Fn) (ls : list Listener)
  : list Listener :=
  match ls with
  | [] => [mkListener ty true f]
  | l :: ls' =>
      if l_attr l && bool_decide (l_type l = ty)
      then mkListener ty true f :: ls'
      else l :: set_attr_listener ty f ls'
  end.

Definition set_onclick (el : option node) (f : Fn) : M unit :=
  n <- deref el ;;
  modify (λ h, set_node_listeners
                 (<[n := set_attr_listener "click" f (listeners_of h n)]>
                    (node_listeners h)) h).

(** [el.addEventListener(type, f)] with a function expression for [f]: the
    closure is a new object, so it is never already registered, and the
    listener is appended. *)
Definition add_listener (l : Listener) (ls : list Listener) : list Listener :=
  ls ++ [l].

Definition addEventListener (el : option node) (ty : string) (f : Fn) : M unit :=
  n <- deref el ;;
  modify (λ h, set_node_listeners
                 (<[n := add_listener (mkListener ty false f) (listeners_of h n)]>
                    (node_listeners h)) h).

Definition window_addEventListener (ty : string) (f : Fn) : M unit :=
  modify (λ h, set_window_listeners
                 (add_listener (mkListener ty false f) (window_listeners h)) h).

(** [document.body.scrollTop]: reading a property of [null] throws. *)
Definition document_body_scrollTop : M Qc :=
  λ h, match body_scrollTop h with
       | Some b => (h, Ok b)
       | None => (h, Throw TypeError)
       end.

(** [e.stopPropagation()] *)
Definition stopPropagation : M unit := modify (set_stop_propagation true).

(** [Math.max] on two finite numbers. *)
Definition Math_max (x y : Qc) : Qc := if decide (x < y)%Qc then y else x.

(** ** The script *)

(** The bodies of the three closures. *)
Definition call (f : Fn) : M unit :=
  match f with
  | menuBtn_onclick menuBtn nav =>
      stopPropagation ;;
      active <- classList_contains menuBtn "active" ;;
      if active then
        classList_remove menuBtn "active" ;;
        classList_remove nav "nav-show"
      else
        classList_add nav "nav-show" ;;
        classList_add menuBtn "active"
  | body_click menuBtn nav =>
      classList_remove nav "nav-show" ;;
      classList_remove menuBtn "active"
  | window_scroll backToTop =>
      d <- get documentElement_scrollTop ;;
      b <- document_body_scrollTop ;;
      let scrollTop := Math_max d b in
      if decide (Qc_of_Z 200 < scrollTop)%Qc then
        classList_add backToTop "back-to-top-show"
      else
        classList_remove backToTop "back-to-top-show"
  end.

(** main.js, lines 10-29 *)
Definition clickMenu (doc : Document) : M unit :=
  w <- get innerWidth ;;
  if (w <=? 770)%Z then
    menuBtn <- querySelector doc "#headerMenu" ;;
    nav <- querySelector doc "#headerNav" ;;
    set_onclick menuBtn (menuBtn_onclick menuBtn nav) ;;
    body <- querySelector doc "body" ;;
    addEventListener body "click" (body_click menuBtn nav)
  else ret tt.

(** main.js, lines 32-48 *)
Definition backToTop_block (doc : Document) : M unit :=
  backToTop <- querySelector doc ".back-to-top" ;;
  backToTopA <- querySelector doc ".back-to-top a" ;;
  window_addEventListener "scroll" (window_scroll backToTop).

(** main.js, lines 51-53 *)
Definition hover (doc : Document) : M unit :=
  demoItems <- querySelectorAll doc ".grid-item" ;;
  ret tt.

(** The whole file: an exception that leaves a block ends the script. *)
Definition main_js (doc : Document) : M unit :=
  clickMenu doc ;;
  backToTop_block doc ;;
  hover doc.

(** ** Events *)

(** What the browser tells about a dispatch: the callbacks called, in order,
    each with its outcome. *)
Definition trace : Type := list (Fn * result unit).

(** The listeners of one target are called in the order of registration, those
    of the event's type only.  An exception thrown by a listener is reported
    and the next listener is called all the same. *)
Fixpoint invoke (ty : string) (ls : list Listener) (h : Host) : Host * trace :=
  match ls with
  | [] => (h, [])
  | l :: ls' =>
      if bool_decide (l_type l = ty) then
        let '(h1, r) := call (l_fn l) h in
        let '(h2, tr) := invoke ty ls' h1 in
        (h2, (l_fn l, r) :: tr)
      else invoke ty ls' h
  end.

(** The bubbling phase: the elements of the propagation path from the target
    up to the root, then the window; the stop propagation flag is looked at
    before each of them.  (The script registers no capturing listener and no
    listener on the document.) *)
Fixpoint propagate (ty : string) (path : list node) (h : Host) : Host * trace :=
  if stop_propagation h then (h, [])
  else
    match path with
    | [] => invoke ty (window_listeners h) h
    | n :: path' =>
        let '(h1, t1) := invoke ty (listeners_of h n) h in
        let '(h2, t2) := propagate ty path' h1 in
        (h2, t1 ++ t2)
    end.

(** The event object is new for each dispatch and its flags are unset when the
    dispatch ends. *)
Definition dispatch (ty : string) (path : list node) (h : Host) : Host * trace :=
  let '(h', tr) := propagate ty path (set_stop_propagation false h) in
  (set_stop_propagation false h', tr).

(** The events of the page: a click with its propagation path (the target
    first, the root element last), a scroll of the viewport to the given
    offsets of the document element and of the body, a resize of the window.
    The scroll event is fired at the document and the resize event at the
    window: no element is on their paths.  The offset of the body is [None]
    when [document.body] is [null] at the time of the scroll; that is not
    what [querySelector('body')] gave at the load, since a script in the head
    runs before the body is there.  A document that scrolls has a document
    element. *)
Inductive Event : Type :=
  | Click (path : list node)
  | Scroll (documentElement_top : Qc) (body_top : option Qc)
  | Resize (width : Z).

Definition fire (ev : Event) (h : Host) : Host * trace :=
  match ev with
  | Click path => dispatch "click" path h
  | Scroll d b => dispatch "scroll" [] (set_scrollTop d b h)
  | Resize w => dispatch "resize" [] (set_innerWidth w h)
  end.

Definition step (h : Host) (ev : Event) : Host := fst (fire ev h).

Definition run (evs : list Event) (h : Host) : Host := foldl step h evs.

(** ** Loading the page *)

(** The browser state when the script starts: the viewport width and the class
    lists of the markup, no listener yet. *)
Definition fresh (w : Z) (cls : gmap node (gset string)) : Host :=
  mkHost w (Qc_of_Z 0) (Some (Qc_of_Z 0)) cls ∅ [] false.

Definition load (doc : Document) (w : Z) (cls : gmap node (gset string))
  : Host * result unit :=
  main_js doc (fresh w cls).

(** The page after loading, whether the script ended well or not. *)
Definition loaded (doc : Document) (w : Z) (cls : gmap node (gset string)) : Host :=
  fst (load doc w cls).

(** Membership of a class, as a boolean. *)
Definition has (h : Host) (n : node) (c : string) : bool :=
  bool_decide (c ∈ classList h n).

(** ** The script without its last block *)

(** The script with the hover block left out, as the specification allows an
    implementer to write it. *)
Definition main_js_without_hover (doc : Document) : M unit :=
  clickMenu doc ;;
  backToTop_block doc.

(** ** Sample pages *)

(** html 0, body 1, the menu button 2, the navigation panel 3, the back-to-top
    element 4 and its link 5, two grid items 6 and 7. *)
Definition sample_doc : Document :=
  mkDocument (λ sel,
    if bool_decide (sel = "body") then [1]
    else if bool_decide (sel = "#headerMenu") then [2]
    else if bool_decide (sel = "#headerNav") then [3]
    else if bool_decide (sel = ".back-to-top") then [4]
    else if bool_decide (sel = ".back-to-top a") then [5]
    else if bool_decide (sel = ".grid-item") then [6; 7]
    else [])%nat.

Definition sample_classes : gmap node (gset string) :=
  {[ 2%nat := {[ "header-menu" ]}; 3%nat := {[ "header-nav" ]};
     4%nat := {[ "back-to-top" ]} ]}.

(** The sample page without its menu button. *)
Definition no_menuBtn_doc : Document :=
  mkDocument (λ sel,
    if bool_decide (sel = "body") then [1]
    else if bool_decide (sel = "#headerNav") then [3]
    else if bool_decide (sel = ".back-to-top") then [4]
    else if bool_decide (sel = ".back-to-top a") then [5]
    else if bool_decide (sel = ".grid-item") then [6; 7]
    else [])%nat.

(** The sample page without its panel. *)
Definition no_nav_doc : Document :=
  mkDocument (λ sel,
    if bool_decide (sel = "body") then [1]
    else if bool_decide (sel = "#headerMenu") then [2]
    else if bool_decide (sel = ".back-to-top") then [4]
    else if bool_decide (sel = ".back-to-top a") then [5]
    else if bool_decide (sel = ".grid-item") then [6; 7]
    else [])%nat.

(** The sample page with other grid items and no link in the back-to-top
    element. *)
Definition other_grid_doc : Document :=
  mkDocument (λ sel,
    if bool_decide (sel = "body") then [1]
    else if bool_decide (sel = "#headerMenu") then [2]
    else if bool_decide (sel = "#headerNav") then [3]
    else if bool_decide (sel = ".back-to-top") then [4; 9]
    else if bool_decide (sel = ".grid-item") then [10; 11; 12]
    else [])%nat.

(** A page whose panel is marked open in the markup while its button is not:
    two clicks on the button leave the panel without [nav-show]. *)
Definition open_panel_classes : gmap node (gset string) :=
  {[ 2%nat := {[ "header-menu" ]}; 3%nat := ({[ "header-nav" ]} ∪ {[ "nav-show" ]}) ]}.

(** ** Predicates on the page *)

(** Two states of the browser that differ at most by class lists and by the
    flag of the event. *)
Definition same_page (h h' : Host) : Prop :=
  innerWidth h' = innerWidth h
  ∧ documentElement_scrollTop h' = documentElement_scrollTop h
  ∧ body_scrollTop h' = body_scrollTop h
  ∧ node_listeners h' = node_listeners h
  ∧ window_listeners h' = window_listeners h.

(** The type of the event that the browser dispatches. *)
Definition event_type (ev : Event) : string :=
  match ev with
  | Click _ => "click"
  | Scroll _ _ => "scroll"
  | Resize _ => "resize"
  end.

(** Every registered callback for events of type [ty] is one of [fs]. *)
Definition registered (ty : string) (fs : list Fn) (h : Host) : Prop :=
  (∀ n, Forall (λ l, l_type l = ty → l_fn l ∈ fs) (listeners_of h n))
  ∧ Forall (λ l, l_type l = ty → l_fn l ∈ fs) (window_listeners h).

(** The three listeners that the script registers. *)
Definition menuBtn_listener (mb : node) (nav : option node) : Listener :=
  mkListener "click" true (menuBtn_onclick (Some mb) nav).

Definition body_listener (mb : option node) (nav : option node) : Listener :=
  mkListener "click" false (body_click mb nav).

Definition scroll_listener (bt : option node) : Listener :=
  mkListener "scroll" false (window_scroll bt).

(** The registrations of a load that ended well at a width of at most 770, the
    button [mb] and the body [bd] being two elements. *)
Definition menu_page (mb bd : node) (nav bt : option node) (h : Host) : Prop :=
  node_listeners h
  = <[bd := [body_listener (Some mb) nav]]> {[ mb := [menuBtn_listener mb nav] ]}
  ∧ window_listeners h = [scroll_listener bt].

(** The button has [active] exactly when the panel has [nav-show]. *)
Definition in_step (mb nv : node) (g : Host) : Prop :=
  "active" ∈ classList g mb ↔ "nav-show" ∈ classList g nv.

(** ** The listings of the post on testing with threads

    The post quotes [updateLocalVersion] of a region version vector, as it was
    refactored for testing (lines 115-127) and as it was fixed (lines
    218-227), and the test class whose [compareAndSetVersion] plays the part
    of a second thread that wins the race (lines 135-147).  The object is its
    [AtomicLong localVersion]; a [long] is read, compared and stored here,
    never computed with, so it is a [Z].  The loops take fuel: [None] is a
    loop that has not ended within it. *)
Module RegionVersionVector.

(** [AtomicLong.compareAndSet(expect, update)] on the value [v]. *)
Definition compareAndSet (expect update : Z) (v : Z) : Z * bool :=
  if (v =? expect)%Z then (update, true) else (v, false).

(** The two classes that define [compareAndSetVersion]. *)
Inductive class : Type :=
  | TestableRegionVersionVector
  | VersionRaceConditionRegionVersionVector.

(** Lines 125-127, and the override of lines 143-146, which calls the one of
    the superclass and returns [false]. *)
Definition compareAndSetVersion (c : class) (currentVersion newVersion : Z)
    (localVersion : Z) : Z * bool :=
  match c with
  | TestableRegionVersionVector =>
      compareAndSet currentVersion newVersion localVersion
  | VersionRaceConditionRegionVersionVector =>
      let '(localVersion', _) :=
        compareAndSet currentVersion newVersion localVersion in
      (localVersion', false)
  end.

(** The body of the loop of lines 117-122: the new [localVersion] and the new
    [needToTrySetAgain]. *)
Definition body (c : class) (version : Z) (needToTrySetAgain : bool)
    (localVersion : Z) : Z * bool :=
  let currentVersion := localVersion in
  if (currentVersion <? version)%Z then
    let '(localVersion', set) :=
      compareAndSetVersion c currentVersion version localVersion in
    (localVersion', negb set)
  else (localVersion, needToTrySetAgain).

(** The body of the loop of lines 220-226: the flag is reset first. *)
Definition body_fixed (c : class) (version : Z) (needToTrySetAgain : bool)
    (localVersion : Z) : Z * bool :=
  body c version false localVersion.

(** [do body while (needToTrySetAgain)] *)
Fixpoint do_while (body : bool → Z → Z * bool) (fuel : nat)
    (needToTrySetAgain : bool) (localVersion : Z) : option Z :=
  match fuel with
  | O => None
  | S fuel' =>
      let '(localVersion', needToTrySetAgain') :=
        body needToTrySetAgain localVersion in
      if needToTrySetAgain'
      then do_while body fuel' needToTrySetAgain' localVersion'
      else Some localVersion'
  end.

(** Lines 115-123: the value of [localVersion] when the method returns. *)
Definition updateLocalVersion (fuel : nat) (c : class) (version : Z)
    (localVersion : Z) : option Z :=
  do_while (body c version) fuel false localVersion.

(** Lines 218-227. *)
Definition updateLocalVersion_fixed (fuel : nat) (c : class) (version : Z)
    (localVersion : Z) : option Z :=
  do_while (body_fixed c version) fuel false localVersion.

(** The state of the loop of lines 115-123 after [n] passes, whether it has
    ended or not. *)
Fixpoint passes (c : class) (version : Z) (n : nat)
    (needToTrySetAgain : bool) (localVersion : Z) : Z * bool :=
  match n with
  | O => (localVersion, needToTrySetAgain)
  | S n' =>
      let '(localVersion', needToTrySetAgain') :=
        body c version needToTrySetAgain localVersion in
      passes c version n' needToTrySetAgain' localVersion'
  end.

End RegionVersionVector.

(** * Properties *)

(** ** Class lists *)

Lemma classList_add_class n c h k :
  classList (add_class n c h) k
  = if decide (k = n) then classList h n ∪ {[c]} else classList h k.
Proof.
  unfold classList, add_class; simpl.
  case_decide as E; [subst; by rewrite lookup_insert_eq|].
  by rewrite lookup_insert_ne.
Qed.

Lemma classList_remove_class n c h k :
  classList (remove_class n c h) k
  = if decide (k = n) then classList h n ∖ {[c]} else classList h k.
Proof.
  unfold classList, remove_class; simpl.
  case_decide as E; [subst; by rewrite lookup_insert_eq|].
  by rewrite lookup_insert_ne.
Qed.

Lemma elem_of_add_class n c h k c' :
  c' ∈ classList (add_class n c h) k ↔ c' ∈ classList h k ∨ (k = n ∧ c' = c).
Proof. rewrite classList_add_class. case_decide; set_solver. Qed.

Lemma elem_of_remove_class n c h k c' :
  c' ∈ classList (remove_class n c h) k ↔ c' ∈ classList h k ∧ ¬ (k = n ∧ c' = c).
Proof. rewrite classList_remove_class. case_decide; set_solver. Qed.

Lemma classList_set_stop_propagation b h k :
  classList (set_stop_propagation b h) k = classList h k.
Proof. done. Qed.

Lemma classList_set_scrollTop d b h k :
  classList (set_scrollTop d b h) k = classList h k.
Proof. done. Qed.

Lemma classList_set_innerWidth w h k :
  classList (set_innerWidth w h) k = classList h k.
Proof. done. Qed.

(** Reads the class lists after a run of class changes. *)
Ltac classList_norm :=
  repeat first
    [ rewrite classList_set_stop_propagation
    | rewrite classList_set_scrollTop
    | rewrite classList_set_innerWidth
    | rewrite classList_add_class
    | rewrite classList_remove_class
    | rewrite decide_True by done
    | rewrite decide_False by done ].

(** Adding or removing twice is adding or removing once. *)
Lemma add_class_idemp n c h : add_class n c (add_class n c h) = add_class n c h.
Proof.
  unfold add_class at 1. rewrite classList_add_class, decide_True by done.
  unfold add_class, set_classes; simpl. rewrite insert_insert_eq.
  by replace (classList h n ∪ {[c]} ∪ {[c]}) with (classList h n ∪ {[c]})
    by set_solver.
Qed.

Lemma remove_class_idemp n c h :
  remove_class n c (remove_class n c h) = remove_class n c h.
Proof.
  unfold remove_class at 1. rewrite classList_remove_class, decide_True by done.
  unfold remove_class, set_classes; simpl. rewrite insert_insert_eq.
  by replace (classList h n ∖ {[c]} ∖ {[c]}) with (classList h n ∖ {[c]})
    by set_solver.
Qed.

(** ** The closures *)

Lemma Math_max_lt (z x y : Qc) : (z < Math_max x y ↔ z < x ∨ z < y)%Qc.
Proof.
  unfold Math_max. case_decide as E; split; intros H; auto.
  - destruct H as [H|H]; [by etrans|done].
  - destruct H as [H|H]; [done|]. apply Qcnot_lt_le in E.
    eapply Qclt_le_trans; eauto.
Qed.

Lemma call_menuBtn_onclick mb nv h :
  call (menuBtn_onclick (Some mb) (Some nv)) h
  = (if bool_decide ("active" ∈ classList h mb)
     then remove_class nv "nav-show"
            (remove_class mb "active" (set_stop_propagation true h))
     else add_class mb "active"
            (add_class nv "nav-show" (set_stop_propagation true h)),
     Ok tt).
Proof.
  unfold call, bind, stopPropagation, classList_contains, modify, get; simpl.
  rewrite classList_set_stop_propagation. by case_bool_decide.
Qed.

Lemma call_body_click mb nv h :
  call (body_click (Some mb) (Some nv)) h
  = (remove_class mb "active" (remove_class nv "nav-show" h), Ok tt).
Proof. done. Qed.

Lemma call_window_scroll bt h b :
  body_scrollTop h = Some b →
  call (window_scroll (Some bt)) h
  = (if decide (Qc_of_Z 200 < Math_max (documentElement_scrollTop h) b)%Qc
     then add_class bt "back-to-top-show" h
     else remove_class bt "back-to-top-show" h,
     Ok tt).
Proof.
  intros E. unfold call, bind, get, document_body_scrollTop; simpl.
  rewrite E. by case_decide.
Qed.

(** Without a body the scroll listener throws at [document.body.scrollTop]
    and changes nothing. *)
Lemma call_window_scroll_no_body bt h :
  body_scrollTop h = None →
  call (window_scroll bt) h = (h, Throw TypeError).
Proof.
  intros E. unfold call, bind, get, document_body_scrollTop; simpl.
  by rewrite E.
Qed.

Lemma same_page_refl h : same_page h h.
Proof. by repeat split. Qed.

Lemma same_page_trans h1 h2 h3 : same_page h1 h2 → same_page h2 h3 → same_page h1 h3.
Proof. unfold same_page. intros (?&?&?&?&?) (?&?&?&?&?). repeat split; congruence. Qed.

Lemma call_same_page f h : same_page h (call f h).1.
Proof.
  destruct f as [[mb|] [nv|] | [mb|] [nv|] | [bt|]];
    unfold call, bind, stopPropagation, classList_contains, classList_add,
      classList_remove, deref, modify, get, throw, ret,
      document_body_scrollTop; simpl;
    try destruct (body_scrollTop h);
    repeat (case_bool_decide || case_decide); simpl; by repeat split.
Qed.

Lemma invoke_same_page ty ls h : same_page h (invoke ty ls h).1.
Proof.
  revert h. induction ls as [|l ls IH]; intros h; simpl.
  - apply same_page_refl.
  - case_bool_decide; [|apply IH].
    pose proof (call_same_page (l_fn l) h) as H1.
    destruct (call (l_fn l) h) as [h1 r]. pose proof (IH h1) as H2.
    destruct (invoke ty ls h1) as [h2 tr]. simpl in *.
    by eapply same_page_trans.
Qed.

Lemma propagate_same_page ty path h : same_page h (propagate ty path h).1.
Proof.
  revert h. induction path as [|n path IH]; intros h; simpl.
  - destruct (stop_propagation h); [apply same_page_refl|apply invoke_same_page].
  - destruct (stop_propagation h); [apply same_page_refl|].
    pose proof (invoke_same_page ty (listeners_of h n) h) as H1.
    destruct (invoke ty (listeners_of h n) h) as [h1 t1]. pose proof (IH h1) as H2.
    destruct (propagate ty path h1) as [h2 t2]. simpl in *.
    by eapply same_page_trans.
Qed.

Lemma dispatch_listeners ty path h :
  node_listeners (dispatch ty path h).1 = node_listeners h
  ∧ window_listeners (dispatch ty path h).1 = window_listeners h.
Proof.
  unfold dispatch.
  pose proof (propagate_same_page ty path (set_stop_propagation false h)) as H.
  destruct (propagate ty path (set_stop_propagation false h)) as [h' tr].
  destruct H as (_&_&_&?&?). done.
Qed.

Lemma dispatch_stop_propagation ty path h :
  stop_propagation (dispatch ty path h).1 = false.
Proof.
  unfold dispatch.
  by destruct (propagate ty path (set_stop_propagation false h)).
Qed.

(** No event changes a registration. *)
Lemma step_listeners h ev :
  node_listeners (step h ev) = node_listeners h
  ∧ window_listeners (step h ev) = window_listeners h.
Proof.
  destruct ev as [path|d b|w]; unfold step, fire.
  - apply dispatch_listeners.
  - apply (dispatch_listeners "scroll" [] (set_scrollTop d b h)).
  - apply (dispatch_listeners "resize" [] (set_innerWidth w h)).
Qed.

Lemma run_listeners evs h :
  node_listeners (run evs h) = node_listeners h
  ∧ window_listeners (run evs h) = window_listeners h.
Proof.
  revert h. induction evs as [|ev evs IH]; intros h; [done|].
  unfold run in *; simpl. destruct (IH (step h ev)) as [-> ->].
  apply step_listeners.
Qed.

Lemma run_app evs1 evs2 h : run (evs1 ++ evs2) h = run evs2 (run evs1 h).
Proof. apply foldl_app. Qed.

Lemma run_snoc evs ev h : run (evs ++ [ev]) h = step (run evs h) ev.
Proof. by rewrite run_app. Qed.

(** ** Invariants of the class lists *)

Lemma registered_same_page ty fs h h' :
  same_page h h' → registered ty fs h → registered ty fs h'.
Proof.
  intros (_&_&_&En&Ew) [Hn Hw]. split; [|by rewrite Ew].
  intros n. specialize (Hn n). unfold listeners_of in *. by rewrite En.
Qed.

Lemma registered_mono ty fs fs' h :
  fs ⊆ fs' → registered ty fs h → registered ty fs' h.
Proof.
  intros Hsub [Hn Hw]. split; [intros n; specialize (Hn n)|];
    (eapply Forall_impl; [eassumption|]); intros l Hl ?; by apply Hsub, Hl.
Qed.

Section invariant.
Variable fs : list Fn.
Variable I : Host → Prop.

(** [I] is kept by the callbacks of [fs] and reads the class lists only. *)
Hypothesis I_call : ∀ f h, f ∈ fs → I h → I (call f h).1.
Hypothesis I_classes : ∀ h h', classes h' = classes h → I h → I h'.

Lemma invoke_invariant ty ls h :
  Forall (λ l, l_type l = ty → l_fn l ∈ fs) ls → I h → I (invoke ty ls h).1.
Proof.
  revert h. induction ls as [|l ls IH]; intros h Hls Hh; simpl; [done|].
  inversion_clear Hls as [|? ? Hl Hls'].
  case_bool_decide as Ety; [|by apply IH].
  pose proof (I_call (l_fn l) h (Hl Ety) Hh) as H1.
  destruct (call (l_fn l) h) as [h1 r]. pose proof (IH h1 Hls' H1) as H2.
  by destruct (invoke ty ls h1) as [h2 tr].
Qed.

Lemma propagate_invariant ty path h :
  registered ty fs h → I h → I (propagate ty path h).1.
Proof.
  revert h. induction path as [|n path IH]; intros h Hreg Hh; simpl.
  - destruct (stop_propagation h); [done|].
    apply invoke_invariant; [apply Hreg|done].
  - destruct (stop_propagation h); [done|].
    pose proof (invoke_invariant ty (listeners_of h n) h (proj1 Hreg n) Hh) as H1.
    pose proof (invoke_same_page ty (listeners_of h n) h) as S1.
    destruct (invoke ty (listeners_of h n) h) as [h1 t1]. simpl in *.
    pose proof (IH h1 (registered_same_page _ _ _ _ S1 Hreg) H1) as H2.
    by destruct (propagate ty path h1) as [h2 t2].
Qed.

Lemma dispatch_invariant ty path h :
  registered ty fs h → I h → I (dispatch ty path h).1.
Proof.
  intros Hreg Hh. unfold dispatch.
  pose proof (propagate_invariant ty path (set_stop_propagation false h)) as H.
  destruct (propagate ty path (set_stop_propagation false h)) as [h' tr].
  simpl in *. eapply (I_classes h'); [done|]. apply H.
  - by destruct Hreg.
  - by apply (I_classes h).
Qed.

Lemma step_invariant h ev :
  registered (event_type ev) fs h → I h → I (step h ev).
Proof.
  intros Hreg Hh. destruct ev as [path|d b|w]; unfold step, fire.
  - by apply dispatch_invariant.
  - apply dispatch_invariant; [by destruct Hreg|by apply (I_classes h)].
  - apply dispatch_invariant; [by destruct Hreg|by apply (I_classes h)].
Qed.

Lemma step_registered ty h ev : registered ty fs h → registered ty fs (step h ev).
Proof.
  intros [Hn Hw]. destruct (step_listeners h ev) as [En Ew].
  split; [|by rewrite Ew]. intros n. unfold listeners_of. rewrite En. apply Hn.
Qed.

Lemma run_invariant evs h : (∀ ty, registered ty fs h) → I h → I (run evs h).
Proof.
  revert h. induction evs as [|ev evs IH]; intros h Hreg Hh; [done|].
  apply (IH (step h ev)); [intros ty; by apply step_registered|].
  by apply step_invariant.
Qed.
End invariant.

Lemma run_registered ty fs evs h : registered ty fs h → registered ty fs (run evs h).
Proof.
  intros [Hn Hw]. destruct (run_listeners evs h) as [En Ew].
  split; [|by rewrite Ew]. intros n. unfold listeners_of. rewrite En. apply Hn.
Qed.

(** ** What loading registers *)

Section loading.
Variables (doc : Document) (w : Z) (cls : gmap node (gset string)).

Let nav := head (select doc "#headerNav").
Let bt := head (select doc ".back-to-top").

(** A viewport wider than 770: nothing but the scroll listener. *)
Lemma load_wide :
  (770 < w)%Z →
  load doc w cls
  = (mkHost w (Qc_of_Z 0) (Some (Qc_of_Z 0)) cls ∅ [scroll_listener bt] false, Ok tt).
Proof.
  intros Hw. unfold load, main_js, clickMenu, bind, get; simpl.
  by rewrite (proj2 (Z.leb_gt w 770) Hw).
Qed.

(** At most 770 and no menu button: line 14 throws, nothing is registered. *)
Lemma load_no_menuBtn :
  (w ≤ 770)%Z → head (select doc "#headerMenu") = None →
  load doc w cls = (fresh w cls, Throw TypeError).
Proof.
  intros Hw Hmb. unfold load, main_js, clickMenu, bind, get; simpl.
  by rewrite (proj2 (Z.leb_le w 770) Hw), Hmb.
Qed.

(** At most 770, a menu button and no body: line 24 throws after the
    button's handler is set. *)
Lemma load_no_body mb :
  (w ≤ 770)%Z → head (select doc "#headerMenu") = Some mb →
  head (select doc "body") = None →
  load doc w cls
  = (mkHost w (Qc_of_Z 0) (Some (Qc_of_Z 0)) cls {[ mb := [menuBtn_listener mb nav] ]}
            [] false, Throw TypeError).
Proof.
  intros Hw Hmb Hbd. unfold load, main_js, clickMenu, bind, get; simpl.
  by rewrite (proj2 (Z.leb_le w 770) Hw), Hmb, Hbd.
Qed.

(** At most 770, a menu button and a body: the three listeners. *)
Lemma load_narrow mb bd :
  (w ≤ 770)%Z → head (select doc "#headerMenu") = Some mb →
  head (select doc "body") = Some bd →
  load doc w cls
  = (mkHost w (Qc_of_Z 0) (Some (Qc_of_Z 0)) cls
       (<[bd := (if decide (bd = mb) then [menuBtn_listener mb nav] else [])
                ++ [body_listener (Some mb) nav]]>
          {[ mb := [menuBtn_listener mb nav] ]})
       [scroll_listener bt] false, Ok tt).
Proof.
  intros Hw Hmb Hbd. unfold load, main_js, clickMenu, bind, get; simpl.
  rewrite (proj2 (Z.leb_le w 770) Hw), Hmb, Hbd; simpl.
  unfold set_node_listeners, set_window_listeners, listeners_of; simpl.
  rewrite insert_empty. repeat f_equal.
  case_decide as E; [subst; by rewrite lookup_singleton_eq|].
  by rewrite lookup_singleton_ne.
Qed.

Lemma load_classes : classes (loaded doc w cls) = cls.
Proof.
  unfold loaded. destruct (Z.le_gt_cases w 770) as [Hw|Hw].
  - destruct (head (select doc "#headerMenu")) as [mb|] eqn:Hmb.
    + destruct (head (select doc "body")) as [bd|] eqn:Hbd.
      * by rewrite (load_narrow mb bd).
      * by rewrite (load_no_body mb).
    + by rewrite load_no_menuBtn.
  - by rewrite load_wide.
Qed.
End loading.

(** The registrations of the loaded page, in the four cases of the load. *)
Lemma loaded_listeners doc w cls :
  let nav := head (select doc "#headerNav") in
  let h := loaded doc w cls in
  (window_listeners h
   = if decide ((load doc w cls).2 = Ok tt)
     then [scroll_listener (head (select doc ".back-to-top"))] else [])
  ∧ ∀ n l, l ∈ listeners_of h n →
      (w ≤ 770)%Z ∧ ∃ mb, head (select doc "#headerMenu") = Some mb
        ∧ ((l = menuBtn_listener mb nav ∧ n = mb)
           ∨ (l = body_listener (Some mb) nav ∧ head (select doc "body") = Some n)).
Proof.
  intros nav h. subst h. unfold loaded, listeners_of.
  destruct (Z.le_gt_cases w 770) as [Hw|Hw].
  - destruct (head (select doc "#headerMenu")) as [mb|] eqn:Hmb.
    + destruct (head (select doc "body")) as [bd|] eqn:Hbd.
      * rewrite (load_narrow _ _ _ mb bd) by done. simpl. split; [done|].
        intros n l. destruct (decide (n = bd)) as [->|Hn].
        { rewrite lookup_insert_eq; simpl. intros Hl. split; [done|].
          exists mb. split; [done|]. case_decide; subst; set_solver. }
        rewrite lookup_insert_ne by done.
        destruct (decide (n = mb)) as [->|Hn'].
        { rewrite lookup_singleton_eq; simpl. intros Hl. split; [done|].
          exists mb. set_solver. }
        rewrite lookup_singleton_ne by done. simpl. set_solver.
      * rewrite (load_no_body _ _ _ mb) by done. simpl. split; [done|].
        intros n l. destruct (decide (n = mb)) as [->|Hn'].
        { rewrite lookup_singleton_eq; simpl. intros Hl. split; [done|].
          exists mb. set_solver. }
        rewrite lookup_singleton_ne by done. simpl. set_solver.
    + rewrite load_no_menuBtn by done. simpl. split; [done|]. set_solver.
  - rewrite load_wide by done. simpl. split; [done|]. set_solver.
Qed.

(** Whatever the document and the width, the callbacks registered by the
    script are the three closures over the results of the selectors, each for
    its type of event. *)
Lemma loaded_registered_click doc w cls :
  registered "click"
    [menuBtn_onclick (head (select doc "#headerMenu")) (head (select doc "#headerNav"));
     body_click (head (select doc "#headerMenu")) (head (select doc "#headerNav"))]
    (loaded doc w cls).
Proof.
  destruct (loaded_listeners doc w cls) as [Hwin Hn]. split.
  - intros n. apply Forall_forall. intros l Hl _.
    destruct (Hn n l Hl) as (_ & mb & -> & [[-> _]|[-> _]]); set_solver.
  - rewrite Hwin. case_decide; repeat constructor; done.
Qed.

Lemma loaded_registered_scroll doc w cls :
  registered "scroll" [window_scroll (head (select doc ".back-to-top"))]
             (loaded doc w cls).
Proof.
  destruct (loaded_listeners doc w cls) as [Hwin Hn]. split.
  - intros n. apply Forall_forall. intros l Hl.
    by destruct (Hn n l Hl) as (_ & mb & _ & [[-> _]|[-> _]]).
  - rewrite Hwin. case_decide; repeat constructor; set_solver.
Qed.

Lemma loaded_registered_other doc w cls ty :
  ty ≠ "click" → ty ≠ "scroll" → registered ty [] (loaded doc w cls).
Proof.
  intros Hc Hs. destruct (loaded_listeners doc w cls) as [Hwin Hn]. split.
  - intros n. apply Forall_forall. intros l Hl.
    by destruct (Hn n l Hl) as (_ & mb & _ & [[-> _]|[-> _]]).
  - rewrite Hwin. case_decide; repeat constructor; done.
Qed.

Lemma loaded_registered doc w cls ty :
  registered ty
    [menuBtn_onclick (head (select doc "#headerMenu")) (head (select doc "#headerNav"));
     body_click (head (select doc "#headerMenu")) (head (select doc "#headerNav"));
     window_scroll (head (select doc ".back-to-top"))]
    (loaded doc w cls).
Proof.
  destruct (decide (ty = "click")) as [->|Hc].
  { eapply registered_mono; [|apply loaded_registered_click]. set_solver. }
  destruct (decide (ty = "scroll")) as [->|Hs].
  { eapply registered_mono; [|apply loaded_registered_scroll]. set_solver. }
  eapply registered_mono; [|by apply loaded_registered_other]. set_solver.
Qed.

(** Wider than 770, no element has a listener. *)
Lemma loaded_wide_listeners doc w cls :
  (770 < w)%Z → node_listeners (loaded doc w cls) = ∅.
Proof. intros Hw. unfold loaded. by rewrite load_wide. Qed.

(** ** Dispatching on the loaded page *)

Arguments call : simpl never.

Lemma propagate_stopped ty path h :
  stop_propagation h = true → propagate ty path h = (h, []).
Proof. intros E. destruct path; simpl; by rewrite E. Qed.

Lemma propagate_silent ty n path h :
  stop_propagation h = false → invoke ty (listeners_of h n) h = (h, []) →
  propagate ty (n :: path) h = propagate ty path h.
Proof.
  intros E Hn. simpl. rewrite E, Hn.
  by destruct (propagate ty path h) as [h2 t2].
Qed.

(** The button's handler stops the propagation first, whatever else happens. *)
Lemma call_menuBtn_onclick_stops mb nav h :
  stop_propagation (call (menuBtn_onclick mb nav) h).1 = true.
Proof.
  destruct mb as [mb|], nav as [nv|];
    unfold call, bind, stopPropagation, classList_contains, classList_add,
      classList_remove, deref, modify, get, throw, ret; simpl;
    repeat case_bool_decide; done.
Qed.

Lemma call_body_click_stop_propagation mb nav h :
  stop_propagation (call (body_click mb nav) h).1 = stop_propagation h.
Proof. by destruct mb as [mb|], nav as [nv|]. Qed.

Lemma remove_class_comm n c n' c' h :
  remove_class n c (remove_class n' c' h)
  = remove_class n' c' (remove_class n c h).
Proof.
  unfold remove_class at 1 3. rewrite !classList_remove_class.
  unfold remove_class, set_classes; simpl. f_equal.
  destruct (decide (n = n')) as [->|Hn].
  - rewrite !decide_True, !insert_insert_eq by done. f_equal. set_solver.
  - rewrite !decide_False by done. by apply insert_insert_ne.
Qed.

(** Closing a closed menu changes nothing. *)
Lemma call_body_click_idemp mb nav h :
  (call (body_click mb nav) (call (body_click mb nav) h).1).1
  = (call (body_click mb nav) h).1.
Proof.
  destruct mb as [mb|], nav as [nv|]; try done.
  - rewrite !call_body_click. cbn [fst].
    rewrite (remove_class_comm nv "nav-show" mb "active").
    by rewrite !remove_class_idemp.
  - unfold call, bind, classList_remove, deref, modify, throw; simpl.
    by rewrite remove_class_idemp.
Qed.

Section menu.
Variables (mb bd : node) (nav bt : option node).
Hypothesis mb_bd : mb ≠ bd.

Lemma menu_page_menuBtn h :
  menu_page mb bd nav bt h → listeners_of h mb = [menuBtn_listener mb nav].
Proof.
  intros [E _]. unfold listeners_of. rewrite E.
  by rewrite lookup_insert_ne, lookup_singleton_eq.
Qed.

Lemma menu_page_body h :
  menu_page mb bd nav bt h → listeners_of h bd = [body_listener (Some mb) nav].
Proof. intros [E _]. unfold listeners_of. by rewrite E, lookup_insert_eq. Qed.

Lemma menu_page_other h n :
  menu_page mb bd nav bt h → n ≠ mb → n ≠ bd → listeners_of h n = [].
Proof.
  intros [E _] ? ?. unfold listeners_of.
  by rewrite E, lookup_insert_ne, lookup_singleton_ne.
Qed.

Lemma menu_page_same_page h h' :
  same_page h h' → menu_page mb bd nav bt h → menu_page mb bd nav bt h'.
Proof. intros (_&_&_&En&Ew) [? ?]. split; congruence. Qed.

Lemma menu_page_run evs h :
  menu_page mb bd nav bt h → menu_page mb bd nav bt (run evs h).
Proof.
  intros [? ?]. destruct (run_listeners evs h) as [En Ew]. split; congruence.
Qed.

(** A click whose path meets the button before the body: the button's
    handler is the only callback called. *)
Lemma propagate_click_menuBtn pre post h :
  menu_page mb bd nav bt h → stop_propagation h = false → mb ∉ pre → bd ∉ pre →
  propagate "click" (pre ++ mb :: post) h
  = ((call (menuBtn_onclick (Some mb) nav) h).1,
     [(menuBtn_onclick (Some mb) nav, (call (menuBtn_onclick (Some mb) nav) h).2)]).
Proof.
  intros Hp Hs Hmb Hbd. induction pre as [|n pre IH].
  - simpl. rewrite Hs, (menu_page_menuBtn h Hp); simpl.
    pose proof (call_menuBtn_onclick_stops (Some mb) nav h) as Hstop.
    destruct (call (menuBtn_onclick (Some mb) nav) h) as [h1 r]; simpl in *.
    by rewrite (propagate_stopped _ _ _ Hstop).
  - apply not_elem_of_cons in Hmb as [? ?]. apply not_elem_of_cons in Hbd as [? ?].
    rewrite <- app_comm_cons, propagate_silent; auto.
    by rewrite (menu_page_other h n Hp).
Qed.

(** A click whose path does not meet the button: the body's listener is
    called when the path goes through the body, and nothing else is. *)
Lemma propagate_click_elsewhere path h :
  menu_page mb bd nav bt h → stop_propagation h = false → mb ∉ path →
  (propagate "click" path h).1
  = if bool_decide (bd ∈ path) then (call (body_click (Some mb) nav) h).1 else h.
Proof.
  revert h. induction path as [|n path IH]; intros h Hp Hs Hmb.
  - rewrite bool_decide_false by apply not_elem_of_nil.
    simpl. rewrite Hs. by destruct Hp as [_ ->].
  - apply not_elem_of_cons in Hmb as [Hn Hmb].
    destruct (decide (n = bd)) as [->|Hbd].
    + rewrite bool_decide_true by (apply elem_of_cons; by left).
      simpl. rewrite Hs, (menu_page_body h Hp); simpl.
      pose proof (call_same_page (body_click (Some mb) nav) h) as Hsame.
      pose proof (call_body_click_stop_propagation (Some mb) nav h) as Hs1.
      pose proof (call_body_click_idemp (Some mb) nav h) as Hid.
      destruct (call (body_click (Some mb) nav) h) as [h1 r]; simpl in *.
      specialize (IH h1 (menu_page_same_page _ _ Hsame Hp)).
      rewrite Hs1 in IH. specialize (IH Hs Hmb).
      destruct (propagate "click" path h1) as [h2 t2]; simpl in *.
      rewrite IH. case_bool_decide; done.
    + rewrite propagate_silent by (by rewrite ?(menu_page_other h n Hp)).
      rewrite IH by done.
      rewrite (bool_decide_ext (bd ∈ path) (bd ∈ n :: path)); [done|].
      rewrite elem_of_cons. naive_solver.
Qed.

(** A scroll event calls the scroll listener. *)
Lemma propagate_scroll h :
  window_listeners h = [scroll_listener bt] → stop_propagation h = false →
  propagate "scroll" [] h
  = ((call (window_scroll bt) h).1,
     [(window_scroll bt, (call (window_scroll bt) h).2)]).
Proof.
  intros E Hs. simpl. rewrite Hs, E; simpl.
  by destruct (call (window_scroll bt) h).
Qed.
End menu.

Lemma loaded_menu_page doc w cls mb bd :
  (w ≤ 770)%Z → head (select doc "#headerMenu") = Some mb →
  head (select doc "body") = Some bd → mb ≠ bd →
  menu_page mb bd (head (select doc "#headerNav")) (head (select doc ".back-to-top"))
            (loaded doc w cls).
Proof.
  intros Hw Hmb Hbd Hne. unfold loaded, menu_page.
  rewrite (load_narrow _ _ _ mb bd) by done. simpl.
  by rewrite decide_False by done.
Qed.

Lemma loaded_ok_window_listeners doc w cls :
  (load doc w cls).2 = Ok tt →
  window_listeners (loaded doc w cls)
  = [scroll_listener (head (select doc ".back-to-top"))].
Proof.
  intros Hok. destruct (loaded_listeners doc w cls) as [-> _].
  by rewrite decide_True.
Qed.

(** ** The steps of the loaded page *)

Lemma step_scroll bt h d b :
  window_listeners h = [scroll_listener bt] →
  step h (Scroll d b)
  = set_stop_propagation false
      (call (window_scroll bt) (set_stop_propagation false (set_scrollTop d b h))).1.
Proof.
  intros E. unfold step, fire, dispatch.
  by rewrite (propagate_scroll bt).
Qed.

Lemma step_click_menuBtn mb bd nav bt pre post h :
  mb ≠ bd → menu_page mb bd nav bt h → mb ∉ pre → bd ∉ pre →
  fire (Click (pre ++ mb :: post)) h
  = (set_stop_propagation false
       (call (menuBtn_onclick (Some mb) nav) (set_stop_propagation false h)).1,
     [(menuBtn_onclick (Some mb) nav,
       (call (menuBtn_onclick (Some mb) nav) (set_stop_propagation false h)).2)]).
Proof.
  intros Hne Hp Hmb Hbd. unfold fire, dispatch.
  by rewrite (propagate_click_menuBtn mb bd nav bt).
Qed.

Lemma step_click_elsewhere mb bd nav bt path h :
  menu_page mb bd nav bt h → mb ∉ path →
  step h (Click path)
  = set_stop_propagation false
      (if bool_decide (bd ∈ path)
       then (call (body_click (Some mb) nav) (set_stop_propagation false h)).1
       else set_stop_propagation false h).
Proof.
  intros Hp Hmb. unfold step, fire, dispatch.
  pose proof (propagate_click_elsewhere mb bd nav bt path
                (set_stop_propagation false h)) as H.
  destruct (propagate "click" path (set_stop_propagation false h)) as [h' tr].
  simpl in *. by rewrite H.
Qed.

(** * The claims *)

(** C1. After a scroll event of a document that has a body then, whatever the
    events before it and the class list before them, the back-to-top element
    has the class [back-to-top-show] if and only if the scroll offset, the
    greater of the offsets of the document element and of the body, is
    greater than 200; an offset of 200 is not. *)
Theorem C1_back_to_top_iff_above_200 doc w cls bt evs (d b : Qc) :
  (load doc w cls).2 = Ok tt →
  head (select doc ".back-to-top") = Some bt →
  let s := Math_max d b in
  let h := run (evs ++ [Scroll d (Some b)]) (loaded doc w cls) in
  ((d ≤ s)%Qc ∧ (b ≤ s)%Qc ∧ (s = d ∨ s = b))
  ∧ ("back-to-top-show" ∈ classList h bt ↔ (Qc_of_Z 200 < s)%Qc)
  ∧ ("back-to-top-show" ∈ classList h bt
     ↔ (Qc_of_Z 200 < d)%Qc ∨ (Qc_of_Z 200 < b)%Qc)
  ∧ (s = Qc_of_Z 199 → "back-to-top-show" ∉ classList h bt)
  ∧ (s = Qc_of_Z 200 → "back-to-top-show" ∉ classList h bt)
  ∧ (s = Qc_of_Z 201 → "back-to-top-show" ∈ classList h bt).
Proof.
  intros Hok Hbt s h.
  assert (Hiff : "back-to-top-show" ∈ classList h bt ↔ (Qc_of_Z 200 < s)%Qc).
  { subst h. rewrite run_snoc.
    rewrite (step_scroll (Some bt)).
    2:{ destruct (run_listeners evs (loaded doc w cls)) as [_ ->].
        rewrite <- Hbt. by apply loaded_ok_window_listeners. }
    rewrite (call_window_scroll bt _ b) by done. simpl. fold s.
    rewrite classList_set_stop_propagation.
    case_decide as E.
    - rewrite elem_of_add_class. naive_solver.
    - rewrite elem_of_remove_class. naive_solver. }
  split; [|split; [done|split]].
  - subst s. unfold Math_max. case_decide as E.
    + split; [by apply Qclt_le_weak|]. split; [apply Qcle_refl|by right].
    + split; [apply Qcle_refl|]. split; [by apply Qcnot_lt_le|by left].
  - rewrite Hiff. apply Math_max_lt.
  - rewrite Hiff. repeat split; intros ->; done.
Qed.

Lemma C1_witness :
  (load sample_doc 500 sample_classes).2 = Ok tt
  ∧ head (select sample_doc ".back-to-top") = Some 4%nat
  ∧ "back-to-top-show"
      ∈ classList (run ([Scroll (Qc_of_Z 100) (Some (Qc_of_Z 0)); Click [2; 1; 0]%nat]
                        ++ [Scroll (Qc_of_Z 0) (Some (Qc_of_Z 201))])
                       (loaded sample_doc 500 sample_classes)) 4%nat.
Proof.
  split; [reflexivity|]. split; [reflexivity|].
  destruct (C1_back_to_top_iff_above_200 sample_doc 500 sample_classes 4%nat
              [Scroll (Qc_of_Z 100) (Some (Qc_of_Z 0)); Click [2; 1; 0]%nat]
              (Qc_of_Z 0) (Qc_of_Z 201) eq_refl eq_refl) as (_ & H & _).
  apply H. reflexivity.
Defined.

(** The offsets 199, 200, 201 and one between 200 and 201 on the sample page,
    and a scroll from 300 back to 100. *)
Example scroll_199 :
  has (run [Scroll (Qc_of_Z 199) (Some (Qc_of_Z 0))] (loaded sample_doc 500 sample_classes))
      4 "back-to-top-show" = false.
Proof. vm_compute. reflexivity. Qed.

Example scroll_200 :
  has (run [Scroll (Qc_of_Z 200) (Some (Qc_of_Z 0))] (loaded sample_doc 500 sample_classes))
      4 "back-to-top-show" = false.
Proof. vm_compute. reflexivity. Qed.

Example scroll_201 :
  has (run [Scroll (Qc_of_Z 201) (Some (Qc_of_Z 0))] (loaded sample_doc 500 sample_classes))
      4 "back-to-top-show" = true.
Proof. vm_compute. reflexivity. Qed.

Example scroll_200_and_a_half :
  has (run [Scroll (Qc_of_Z 0) (Some (Q2Qc (401 # 2)))] (loaded sample_doc 1024 sample_classes))
      4 "back-to-top-show" = true.
Proof. vm_compute. reflexivity. Qed.

Example scroll_without_body :
  let h := loaded sample_doc 1024 sample_classes in
  (fire (Scroll (Qc_of_Z 300) None) h).2
  = [(window_scroll (Some 4%nat), Throw TypeError)]
  ∧ has (step h (Scroll (Qc_of_Z 300) None)) 4 "back-to-top-show" = false.
Proof. by vm_compute. Qed.

Example scroll_300_then_100 :
  has (run [Scroll (Qc_of_Z 300) (Some (Qc_of_Z 0)); Scroll (Qc_of_Z 100) (Some (Qc_of_Z 0))]
           (loaded sample_doc 500 sample_classes))
      4 "back-to-top-show" = false.
Proof. vm_compute. reflexivity. Qed.

(** ** The menu *)

Lemma step_menu_page mb bd nav bt h ev :
  menu_page mb bd nav bt h → menu_page mb bd nav bt (step h ev).
Proof. apply (menu_page_run mb bd nav bt [ev]). Qed.

(** What a click on the button does to the class lists, the button and the
    panel being two elements. *)
Lemma step_click_menuBtn_classList mb bd nv bt pre post h :
  mb ≠ bd → mb ≠ nv → menu_page mb bd (Some nv) bt h → mb ∉ pre → bd ∉ pre →
  let h1 := step h (Click (pre ++ mb :: post)) in
  (classList h1 mb
   = if bool_decide ("active" ∈ classList h mb)
     then classList h mb ∖ {["active"]} else classList h mb ∪ {["active"]})
  ∧ (classList h1 nv
     = if bool_decide ("active" ∈ classList h mb)
       then classList h nv ∖ {["nav-show"]} else classList h nv ∪ {["nav-show"]})
  ∧ ∀ k, k ≠ mb → k ≠ nv → classList h1 k = classList h k.
Proof.
  intros Hbd Hnv Hp Hpre Hpre' h1. subst h1. unfold step.
  rewrite (step_click_menuBtn mb bd (Some nv) bt) by done.
  rewrite call_menuBtn_onclick. cbn [fst]. classList_norm.
  case_bool_decide as A; (split; [|split; [|intros k ? ?]]);
    by classList_norm.
Qed.

(** C2. At a width of at most 770, a click on the menu button removes [active]
    from the button and [nav-show] from the panel when the button has
    [active], and adds both otherwise.  Two clicks in a row give the button its
    first class list back; they give the panel its first class list back
    exactly when the panel had [nav-show] if and only if the button had
    [active]. *)
Theorem C2_menu_button_click doc w cls mb nv bd evs pre post pre' post' :
  (w ≤ 770)%Z →
  head (select doc "#headerMenu") = Some mb →
  head (select doc "#headerNav") = Some nv →
  head (select doc "body") = Some bd →
  mb ≠ bd → mb ≠ nv →
  mb ∉ pre → bd ∉ pre → mb ∉ pre' → bd ∉ pre' →
  let h := run evs (loaded doc w cls) in
  let h1 := step h (Click (pre ++ mb :: post)) in
  let h2 := step h1 (Click (pre' ++ mb :: post')) in
  (if bool_decide ("active" ∈ classList h mb)
   then classList h1 mb = classList h mb ∖ {["active"]}
        ∧ classList h1 nv = classList h nv ∖ {["nav-show"]}
   else classList h1 mb = classList h mb ∪ {["active"]}
        ∧ classList h1 nv = classList h nv ∪ {["nav-show"]})
  ∧ classList h2 mb = classList h mb
  ∧ (classList h2 nv = classList h nv
     ↔ ("nav-show" ∈ classList h nv ↔ "active" ∈ classList h mb)).
Proof.
  intros Hw Hmb Hnav Hbody Hbd Hnv Hpre1 Hpre2 Hpre1' Hpre2' h h1 h2.
  assert (Hp : menu_page mb bd (Some nv) (head (select doc ".back-to-top")) h).
  { subst h. apply menu_page_run. rewrite <- Hnav. by apply loaded_menu_page. }
  destruct (step_click_menuBtn_classList mb bd nv _ pre post h
              Hbd Hnv Hp Hpre1 Hpre2) as (E1 & E2 & _).
  destruct (step_click_menuBtn_classList mb bd nv _ pre' post' h1
              Hbd Hnv (step_menu_page _ _ _ _ _ _ Hp) Hpre1' Hpre2') as (E1' & E2' & _).
  fold h1 in E1, E2. fold h2 in E1', E2'.
  rewrite E1', E2', E1, E2. clear E1 E2 E1' E2'.
  destruct (bool_decide ("active" ∈ classList h mb)) eqn:A.
  - apply bool_decide_eq_true in A.
    rewrite bool_decide_false by set_solver.
    split; [done|]. split.
    + apply set_eq. intros c. destruct (decide (c = "active")); set_solver.
    + split.
      * intros E. split; [done|]. intros _. rewrite <- E. set_solver.
      * intros [_ E]. specialize (E A).
        apply set_eq. intros c. destruct (decide (c = "nav-show")); set_solver.
  - apply bool_decide_eq_false in A.
    rewrite bool_decide_true by set_solver.
    split; [done|]. split.
    + set_solver.
    + split.
      * intros E. split; [|done]. intros B. rewrite <- E in B. set_solver.
      * intros [E _]. set_solver.
Qed.

Lemma C2_witness :
  let h := loaded sample_doc 500 sample_classes in
  let h2 := step (step h (Click [8; 2; 1; 0]%nat)) (Click [2; 1; 0]%nat) in
  classList h2 2%nat = classList h 2%nat.
Proof.
  refine (proj1 (proj2 (C2_menu_button_click sample_doc 500 sample_classes
                          2%nat 3%nat 1%nat [] [8%nat] [1; 0]%nat [] [1; 0]%nat
                          _ eq_refl eq_refl eq_refl _ _ _ _ _ _)));
    first [lia | compute_done].
Defined.

Lemma C2_counterexample :
  let h := loaded sample_doc 500 open_panel_classes in
  let h2 := step (step h (Click [2; 1; 0]%nat)) (Click [2; 1; 0]%nat) in
  (500 ≤ 770)%Z
  ∧ head (select sample_doc "#headerMenu") = Some 2%nat
  ∧ head (select sample_doc "#headerNav") = Some 3%nat
  ∧ "nav-show" ∈ classList h 3%nat
  ∧ ("nav-show" ∉ classList h2 3%nat)
  ∧ classList h2 3%nat ≠ classList h 3%nat.
Proof.
  intros h h2.
  assert (H1 : "nav-show" ∈ classList h 3%nat).
  { apply (bool_decide_unpack _). by vm_compute. }
  assert (H2 : "nav-show" ∉ classList h2 3%nat).
  { apply (bool_decide_eq_false_1 _). by vm_compute. }
  repeat split; try done; intros E; by rewrite E in H2.
Qed.

(** ** The width *)

Lemma propagate_no_listener ty path h :
  stop_propagation h = false →
  (∀ n, invoke ty (listeners_of h n) h = (h, [])) →
  invoke ty (window_listeners h) h = (h, []) →
  propagate ty path h = (h, []).
Proof.
  intros Hs Hn Hw. induction path as [|n path IH].
  - simpl. by rewrite Hs.
  - by rewrite propagate_silent.
Qed.

(** Wider than 770 at the load, a click calls nothing and changes nothing,
    whatever happened since. *)
Lemma fire_click_wide doc w cls evs path :
  (770 < w)%Z →
  let h := run evs (loaded doc w cls) in
  fire (Click path) h = (set_stop_propagation false h, []).
Proof.
  intros Hw h. destruct (run_listeners evs (loaded doc w cls)) as [En Ew].
  fold h in En, Ew. unfold loaded in En, Ew. rewrite load_wide in En, Ew by done.
  simpl in En, Ew. unfold fire, dispatch.
  rewrite propagate_no_listener; [done|done|..].
  - intros n. unfold listeners_of. simpl. by rewrite En, lookup_empty.
  - simpl. by rewrite Ew.
Qed.

(** At most 770, a button and a body: the two listeners of the menu. *)
Lemma loaded_narrow_listeners doc w cls mb bd :
  (w ≤ 770)%Z → head (select doc "#headerMenu") = Some mb →
  head (select doc "body") = Some bd →
  let h := loaded doc w cls in
  let nav := head (select doc "#headerNav") in
  menuBtn_listener mb nav ∈ listeners_of h mb
  ∧ body_listener (Some mb) nav ∈ listeners_of h bd.
Proof.
  intros Hw Hmb Hbd h nav. subst h. unfold listeners_of, loaded.
  rewrite (load_narrow _ _ _ mb bd) by done. simpl.
  rewrite lookup_insert_eq. simpl. split; [|set_solver].
  destruct (decide (mb = bd)) as [->|Hne].
  - rewrite lookup_insert_eq. simpl. rewrite decide_True by done. set_solver.
  - rewrite lookup_insert_ne, lookup_singleton_eq by done. set_solver.
Qed.

(** C3. The width is read by the load and by nothing else: no event, a resize
    included, changes what is registered.  At most 770 at the load, the
    button's handler and the body's closing listener are registered; wider,
    no element has a listener, and no click calls a callback or changes a
    class list, for the whole life of the page. *)
Theorem C3_width_checked_once doc w cls evs :
  let h0 := loaded doc w cls in
  let h := run evs h0 in
  let nav := head (select doc "#headerNav") in
  (node_listeners h = node_listeners h0 ∧ window_listeners h = window_listeners h0)
  ∧ ((w ≤ 770)%Z →
     ∀ mb bd, head (select doc "#headerMenu") = Some mb →
              head (select doc "body") = Some bd →
       menuBtn_listener mb nav ∈ listeners_of h mb
       ∧ body_listener (Some mb) nav ∈ listeners_of h bd)
  ∧ ((770 < w)%Z →
     node_listeners h = ∅
     ∧ ∀ path, (fire (Click path) h).2 = []
               ∧ classes (step h (Click path)) = classes h).
Proof.
  intros h0 h nav. pose proof (run_listeners evs h0) as [En Ew]. fold h in En, Ew.
  split; [done|]. split.
  - intros Hw mb bd Hmb Hbd. unfold listeners_of. rewrite En.
    by apply loaded_narrow_listeners.
  - intros Hw. split.
    + rewrite En. by apply loaded_wide_listeners.
    + intros path. unfold step. subst h h0. by rewrite fire_click_wide.
Qed.

Lemma C3_witness :
  let narrow := run [Resize 1024; Click [2; 1; 0]%nat]
                    (loaded sample_doc 770 sample_classes) in
  let wide := run [Resize 500; Click [2; 1; 0]%nat]
                  (loaded sample_doc 771 sample_classes) in
  menuBtn_listener 2 (Some 3%nat) ∈ listeners_of narrow 2
  ∧ body_listener (Some 2%nat) (Some 3%nat) ∈ listeners_of narrow 1
  ∧ node_listeners wide = ∅
  ∧ classes (step wide (Click [2; 1; 0]%nat)) = classes wide.
Proof.
  intros narrow wide.
  pose proof (C3_width_checked_once sample_doc 770 sample_classes
                [Resize 1024; Click [2; 1; 0]%nat]) as (_ & Hn & _).
  pose proof (C3_width_checked_once sample_doc 771 sample_classes
                [Resize 500; Click [2; 1; 0]%nat]) as (_ & _ & Hw).
  destruct (Hn ltac:(lia) 2%nat 1%nat eq_refl eq_refl) as [H1 H2].
  destruct (Hw ltac:(lia)) as [H3 H4].
  destruct (H4 [2; 1; 0]%nat) as [_ H5].
  exact (conj H1 (conj H2 (conj H3 H5))).
Defined.

(** ** Closing the menu *)

Lemma body_click_closes mb nv g :
  let g' := (call (body_click (Some mb) (Some nv)) g).1 in
  ("nav-show" ∉ classList g' nv) ∧ ("active" ∉ classList g' mb).
Proof.
  rewrite call_body_click. cbn [fst].
  rewrite !elem_of_remove_class. naive_solver.
Qed.

(** C4. At a width of at most 770, a click whose path goes through the body
    and not through the menu button runs the body's listener, which ends well
    and leaves the panel without [nav-show] and the button without [active],
    whatever the class lists were. *)
Theorem C4_body_click_closes doc w cls mb nv bd evs path :
  (w ≤ 770)%Z →
  head (select doc "#headerMenu") = Some mb →
  head (select doc "#headerNav") = Some nv →
  head (select doc "body") = Some bd →
  bd ∈ path → mb ∉ path →
  let h := run evs (loaded doc w cls) in
  let h' := step h (Click path) in
  (∀ g, (call (body_click (Some mb) (Some nv)) g).2 = Ok tt
        ∧ ("nav-show" ∉ classList (call (body_click (Some mb) (Some nv)) g).1 nv)
        ∧ ("active" ∉ classList (call (body_click (Some mb) (Some nv)) g).1 mb))
  ∧ h' = set_stop_propagation false
           (call (body_click (Some mb) (Some nv)) (set_stop_propagation false h)).1
  ∧ ("nav-show" ∉ classList h' nv)
  ∧ ("active" ∉ classList h' mb).
Proof.
  intros Hw Hmb Hnav Hbody Hin Hout h h'.
  assert (Hne : mb ≠ bd) by (intros ->; done).
  assert (Hp : menu_page mb bd (Some nv) (head (select doc ".back-to-top")) h).
  { subst h. apply menu_page_run. rewrite <- Hnav. by apply loaded_menu_page. }
  split; [intros g; split; [done|apply body_click_closes]|].
  assert (E : h' = set_stop_propagation false
                (call (body_click (Some mb) (Some nv)) (set_stop_propagation false h)).1).
  { subst h'. rewrite (step_click_elsewhere mb bd (Some nv) _ path h Hp Hout).
    by rewrite bool_decide_true. }
  split; [done|]. rewrite E, !classList_set_stop_propagation.
  apply body_click_closes.
Qed.

Lemma C4_witness :
  let h := run [Click [2; 1; 0]%nat] (loaded sample_doc 500 sample_classes) in
  let h' := step h (Click [3; 1; 0]%nat) in
  ("active" ∈ classList h 2%nat ∧ "nav-show" ∈ classList h 3%nat)
  ∧ ("nav-show" ∉ classList h' 3%nat) ∧ ("active" ∉ classList h' 2%nat).
Proof.
  intros h h'. split.
  - split; apply (bool_decide_unpack _); by vm_compute.
  - refine (proj2 (proj2 (C4_body_click_closes sample_doc 500 sample_classes
                            2%nat 3%nat 1%nat [Click [2; 1; 0]%nat] [3; 1; 0]%nat
                            _ eq_refl eq_refl eq_refl _ _)));
      first [lia | compute_done].
Defined.

(** ** Stopping the propagation *)

(** C5. A click whose path meets the menu button before the body never calls
    the body's closing listener: at a width of at most 770 the button's
    handler is the one callback of the event, it is called first and sets the
    stop propagation flag, so a click that opens the menu leaves it open;
    without the flag the rest of the path would have called the body's
    listener and closed the menu again.  Wider, no callback is called. *)
Theorem C5_button_click_stops_propagation doc w cls mb bd evs pre post :
  head (select doc "#headerMenu") = Some mb →
  head (select doc "body") = Some bd →
  mb ≠ bd → mb ∉ pre → bd ∉ pre →
  let nav := head (select doc "#headerNav") in
  let h := run evs (loaded doc w cls) in
  let tr := (fire (Click (pre ++ mb :: post)) h).2 in
  let h' := step h (Click (pre ++ mb :: post)) in
  let h1 := (call (menuBtn_onclick (Some mb) nav) (set_stop_propagation false h)).1 in
  (∀ r, (body_click (Some mb) nav, r) ∉ tr)
  ∧ ((w ≤ 770)%Z →
     (∃ r, tr = [(menuBtn_onclick (Some mb) nav, r)])
     ∧ stop_propagation h1 = true
     ∧ h' = set_stop_propagation false h1
     ∧ ∀ nv, nav = Some nv →
         ("active" ∉ classList h mb →
          "active" ∈ classList h' mb ∧ "nav-show" ∈ classList h' nv)
         ∧ (bd ∈ post → mb ∉ post →
            let g := (propagate "click" post (set_stop_propagation false h1)).1 in
            ("active" ∉ classList g mb) ∧ ("nav-show" ∉ classList g nv))).
Proof.
  intros Hmb Hbody Hne Hpre1 Hpre2 nav h tr h' h1.
  destruct (Z.le_gt_cases w 770) as [Hw|Hw].
  - assert (Hp : menu_page mb bd nav (head (select doc ".back-to-top")) h).
    { subst h. apply menu_page_run. by apply loaded_menu_page. }
    assert (Hf := step_click_menuBtn mb bd nav _ pre post h Hne Hp Hpre1 Hpre2).
    fold h1 in Hf. subst tr h'. unfold step. rewrite Hf. cbn [fst snd].
    split; [intros r Hr; apply list_elem_of_singleton in Hr; congruence|].
    intros _. split; [by eexists|].
    split; [apply call_menuBtn_onclick_stops|]. split; [done|].
    intros nv Hnv. split.
    + intros Hclosed. subst h1. rewrite Hnv, call_menuBtn_onclick. cbn [fst].
      rewrite classList_set_stop_propagation.
      rewrite bool_decide_false by done.
      rewrite classList_set_stop_propagation, !elem_of_add_class. naive_solver.
    + intros Hin Hout.
      rewrite (propagate_click_elsewhere mb bd nav (head (select doc ".back-to-top")));
        [| |done|done].
      * rewrite bool_decide_true by done. rewrite Hnv. apply and_comm.
        apply body_click_closes.
      * apply (menu_page_same_page _ _ _ _ h); [|done].
        pose proof (call_same_page (menuBtn_onclick (Some mb) nav)
                      (set_stop_propagation false h)) as S.
        fold h1 in S. destruct S as (?&?&?&?&?). by repeat split.
  - subst tr h. rewrite fire_click_wide by done. cbn [snd].
    split; [intros r; apply not_elem_of_nil|lia].
Qed.

Lemma C5_witness :
  let h := loaded sample_doc 500 sample_classes in
  let h' := step h (Click [8; 2; 1; 0]%nat) in
  ((body_click (Some 2%nat) (Some 3%nat), Ok tt) ∉ (fire (Click [8; 2; 1; 0]%nat) h).2)
  ∧ "active" ∈ classList h' 2%nat ∧ "nav-show" ∈ classList h' 3%nat.
Proof.
  intros h h'.
  assert (Hpre1 : 2%nat ∉ [8%nat]) by compute_done.
  assert (Hpre2 : 1%nat ∉ [8%nat]) by compute_done.
  assert (Hne : 2%nat ≠ 1%nat) by lia.
  assert (Hclosed : "active" ∉ classList h 2%nat) by compute_done.
  pose proof (C5_button_click_stops_propagation sample_doc 500 sample_classes
                2%nat 1%nat [] [8%nat] [1; 0]%nat eq_refl eq_refl Hne Hpre1 Hpre2)
    as [Hbody Hnarrow].
  split; [apply Hbody|].
  destruct (Hnarrow ltac:(lia)) as (_ & _ & _ & Hopen).
  exact (proj1 (Hopen 3%nat eq_refl) Hclosed).
Defined.

(** ** Absent elements *)

Lemma C6_counterexample :
  let h := loaded no_menuBtn_doc 500 sample_classes in
  head (select no_menuBtn_doc "#headerMenu") = None
  ∧ head (select no_menuBtn_doc ".back-to-top") = Some 4%nat
  ∧ (load no_menuBtn_doc 500 sample_classes).2 = Throw TypeError
  ∧ window_listeners h = []
  ∧ has (run [Scroll (Qc_of_Z 300) (Some (Qc_of_Z 0))] h) 4 "back-to-top-show" = false.
Proof. repeat split; by vm_compute. Qed.

Lemma load_ok_iff doc w cls :
  (load doc w cls).2 = Ok tt
  ↔ (770 < w)%Z ∨ (is_Some (head (select doc "#headerMenu"))
                    ∧ is_Some (head (select doc "body"))).
Proof.
  destruct (Z.le_gt_cases w 770) as [Hw|Hw].
  - destruct (head (select doc "#headerMenu")) as [mb|] eqn:Hmb.
    + destruct (head (select doc "body")) as [bd|] eqn:Hbd.
      * rewrite (load_narrow _ _ _ mb bd) by done. simpl. split; [|done].
        intros _. right. by split.
      * rewrite (load_no_body _ _ _ mb) by done. simpl. split; [done|].
        intros [?|[_ [? ?]]]; [lia|done].
    + rewrite load_no_menuBtn by done. simpl. split; [done|].
      intros [?|[[? ?] _]]; [lia|done].
  - rewrite load_wide by done. simpl. split; [by left|done].
Qed.

Lemma load_outcome doc w cls :
  (load doc w cls).2 = Ok tt ∨ (load doc w cls).2 = Throw TypeError.
Proof. destruct (load doc w cls).2 as [[]|[]]; auto. Qed.

(** C6. The script guards no access.  Its load ends well exactly when the
    width is above 770 or the document has both a menu button and a body, and
    then the scroll listener is registered and, at a width of at most 770, the
    two listeners of the menu.  Otherwise the load ends with a [TypeError] at
    the access to the absent element and the scroll listener is never
    registered, so that no scroll changes a class list.  An absent
    back-to-top element does not end the load: the scroll listener throws
    when it is called and changes nothing. *)
Theorem C6_load_without_guards doc w cls :
  let h := loaded doc w cls in
  let nav := head (select doc "#headerNav") in
  ((load doc w cls).2 = Ok tt
   ↔ (770 < w)%Z ∨ (is_Some (head (select doc "#headerMenu"))
                     ∧ is_Some (head (select doc "body"))))
  ∧ ((load doc w cls).2 = Ok tt →
     window_listeners h = [scroll_listener (head (select doc ".back-to-top"))]
     ∧ ((w ≤ 770)%Z → ∀ mb bd,
          head (select doc "#headerMenu") = Some mb →
          head (select doc "body") = Some bd →
          menuBtn_listener mb nav ∈ listeners_of h mb
          ∧ body_listener (Some mb) nav ∈ listeners_of h bd))
  ∧ ((load doc w cls).2 ≠ Ok tt →
     (load doc w cls).2 = Throw TypeError
     ∧ window_listeners h = []
     ∧ ∀ evs d b, classes (step (run evs h) (Scroll d b)) = classes (run evs h))
  ∧ (∀ g, call (window_scroll None) g = (g, Throw TypeError)).
Proof.
  intros h nav. split; [apply load_ok_iff|]. split; [|split].
  3:{ intros g. unfold call, bind, get, document_body_scrollTop; simpl.
      destruct (body_scrollTop g); [by case_decide|done]. }
  - intros Hok. split; [by apply loaded_ok_window_listeners|].
    intros Hw mb bd Hmb Hbd. by apply loaded_narrow_listeners.
  - intros Hko. split; [by destruct (load_outcome doc w cls)|].
    assert (Hwin : window_listeners h = []).
    { subst h. destruct (loaded_listeners doc w cls) as [-> _].
      by rewrite decide_False. }
    split; [done|]. intros evs d b.
    destruct (run_listeners evs h) as [_ Ew]. rewrite Hwin in Ew.
    unfold step, fire, dispatch. simpl. by rewrite Ew.
Qed.

Lemma C6_witness :
  window_listeners (loaded sample_doc 500 sample_classes)
  = [scroll_listener (Some 4%nat)]
  ∧ window_listeners (loaded no_menuBtn_doc 500 sample_classes) = [].
Proof.
  pose proof (C6_load_without_guards sample_doc 500 sample_classes)
    as (_ & Hok & _).
  pose proof (C6_load_without_guards no_menuBtn_doc 500 sample_classes)
    as (_ & _ & Hko & _).
  split.
  - exact (proj1 (Hok eq_refl)).
  - refine (proj1 (proj2 (Hko _))). by vm_compute.
Defined.

(** ** What each closure leaves alone *)

Ltac unfold_call :=
  unfold call, bind, stopPropagation, classList_contains, classList_add,
    classList_remove, deref, modify, get, throw, ret,
    document_body_scrollTop; simpl;
  repeat match goal with
         | |- context [body_scrollTop ?g] => destruct (body_scrollTop g)
         end;
  repeat (case_bool_decide || case_decide); simpl.

(** The scroll listener changes the class list of the back-to-top element
    only, and there the class [back-to-top-show] only. *)
Lemma call_window_scroll_frame bt g n :
  bt ≠ Some n → classList (call (window_scroll bt) g).1 n = classList g n.
Proof.
  intros Hn. destruct bt as [k|]; [|by unfold_call].
  assert (n ≠ k) by congruence. unfold_call; by classList_norm.
Qed.

Lemma call_window_scroll_frame_class bt g n c :
  c ≠ "back-to-top-show" →
  c ∈ classList (call (window_scroll bt) g).1 n ↔ c ∈ classList g n.
Proof.
  intros Hc. destruct bt as [k|]; [|by unfold_call].
  unfold_call; rewrite ?elem_of_add_class, ?elem_of_remove_class; naive_solver.
Qed.

(** The two click callbacks change the class lists of the button and of the
    panel only, and there the classes [active] and [nav-show] only. *)
Lemma call_click_frame f mb nav g n :
  f ∈ [menuBtn_onclick mb nav; body_click mb nav] →
  mb ≠ Some n → nav ≠ Some n →
  classList (call f g).1 n = classList g n.
Proof.
  intros Hf Hmb Hnav.
  assert (f = menuBtn_onclick mb nav ∨ f = body_click mb nav) as [-> | ->]
    by set_solver;
    destruct mb as [m|], nav as [v|];
    try (assert (n ≠ m) by congruence); try (assert (n ≠ v) by congruence);
    unfold_call; by classList_norm.
Qed.

Lemma call_click_frame_class f mb nav g n c :
  f ∈ [menuBtn_onclick mb nav; body_click mb nav] →
  c ≠ "active" → c ≠ "nav-show" →
  c ∈ classList (call f g).1 n ↔ c ∈ classList g n.
Proof.
  intros Hf Hc1 Hc2.
  assert (f = menuBtn_onclick mb nav ∨ f = body_click mb nav) as [-> | ->]
    by set_solver;
    destruct mb as [m|], nav as [v|];
    unfold_call;
    rewrite ?classList_set_stop_propagation,
      ?elem_of_add_class, ?elem_of_remove_class,
      ?classList_set_stop_propagation,
      ?elem_of_add_class, ?elem_of_remove_class,
      ?classList_set_stop_propagation;
    naive_solver.
Qed.

Lemma classList_ext g g' n : classes g' = classes g → classList g' n = classList g n.
Proof. unfold classList. by intros ->. Qed.

(** C7. In every state the page reaches, a scroll changes no class list but
    that of the back-to-top element and no class but [back-to-top-show], so
    that it leaves the classes of the button and of the panel as they are; a
    click changes no class list but those of the button and of the panel and
    no class but [active] and [nav-show], so that it leaves the class of the
    back-to-top element as it is; a resize changes no class list. *)
Theorem C7_listeners_do_not_interact doc w cls evs :
  let mb := head (select doc "#headerMenu") in
  let nav := head (select doc "#headerNav") in
  let bt := head (select doc ".back-to-top") in
  let h := run evs (loaded doc w cls) in
  (∀ d b n, bt ≠ Some n → classList (step h (Scroll d b)) n = classList h n)
  ∧ (∀ d b n c, c ≠ "back-to-top-show" →
       c ∈ classList (step h (Scroll d b)) n ↔ c ∈ classList h n)
  ∧ (∀ path n, mb ≠ Some n → nav ≠ Some n →
       classList (step h (Click path)) n = classList h n)
  ∧ (∀ path n c, c ≠ "active" → c ≠ "nav-show" →
       c ∈ classList (step h (Click path)) n ↔ c ∈ classList h n)
  ∧ (∀ w', classes (step h (Resize w')) = classes h).
Proof.
  intros mb nav bt h.
  assert (Hs : registered "scroll" [window_scroll bt] h)
    by apply run_registered, loaded_registered_scroll.
  assert (Hc : registered "click" [menuBtn_onclick mb nav; body_click mb nav] h)
    by apply run_registered, loaded_registered_click.
  assert (Hr : registered "resize" [] h)
    by (by apply run_registered, loaded_registered_other).
  repeat split.
  - intros d b n Hn.
    apply (step_invariant [window_scroll bt] (λ g, classList g n = classList h n));
      [|intros g g' E <-; by apply classList_ext|done|done].
    intros f g Hf <-. apply list_elem_of_singleton in Hf as ->.
    by apply call_window_scroll_frame.
  - revert c H.
    apply (step_invariant [window_scroll bt]
             (λ g, ∀ c, c ≠ "back-to-top-show" →
                        c ∈ classList g n → c ∈ classList h n));
      [|intros g g' E; by rewrite (classList_ext g g' n E)|done|done].
    intros f g Hf Hg c Hcl. apply list_elem_of_singleton in Hf as ->.
    rewrite call_window_scroll_frame_class by done. by apply Hg.
  - revert c H.
    apply (step_invariant [window_scroll bt]
             (λ g, ∀ c, c ≠ "back-to-top-show" →
                        c ∈ classList h n → c ∈ classList g n));
      [|intros g g' E; by rewrite (classList_ext g g' n E)|done|done].
    intros f g Hf Hg c Hcl. apply list_elem_of_singleton in Hf as ->.
    rewrite call_window_scroll_frame_class by done. by apply Hg.
  - intros path n Hm Hv.
    apply (step_invariant [menuBtn_onclick mb nav; body_click mb nav]
             (λ g, classList g n = classList h n));
      [|intros g g' E <-; by apply classList_ext|done|done].
    intros f g Hf <-. by apply (call_click_frame f mb nav).
  - revert c H H0.
    apply (step_invariant [menuBtn_onclick mb nav; body_click mb nav]
             (λ g, ∀ c, c ≠ "active" → c ≠ "nav-show" →
                        c ∈ classList g n → c ∈ classList h n));
      [|intros g g' E; by rewrite (classList_ext g g' n E)|done|done].
    intros f g Hf Hg c Hc1 Hc2.
    rewrite (call_click_frame_class f mb nav) by done. by apply Hg.
  - revert c H H0.
    apply (step_invariant [menuBtn_onclick mb nav; body_click mb nav]
             (λ g, ∀ c, c ≠ "active" → c ≠ "nav-show" →
                        c ∈ classList h n → c ∈ classList g n));
      [|intros g g' E; by rewrite (classList_ext g g' n E)|done|done].
    intros f g Hf Hg c Hc1 Hc2.
    rewrite (call_click_frame_class f mb nav) by done. by apply Hg.
  - intros w'.
    apply (step_invariant [] (λ g, classes g = classes h));
      [|intros g g' E <-; done|done|done].
    intros f g Hf. by apply not_elem_of_nil in Hf.
Qed.

Lemma C7_witness :
  let h := run [Click [2; 1; 0]%nat] (loaded sample_doc 500 sample_classes) in
  classList (step h (Scroll (Qc_of_Z 300) (Some (Qc_of_Z 0)))) 2%nat = classList h 2%nat
  ∧ classList (step h (Scroll (Qc_of_Z 300) (Some (Qc_of_Z 0)))) 3%nat = classList h 3%nat
  ∧ classList (step h (Click [2; 1; 0]%nat)) 4%nat = classList h 4%nat
  ∧ classList (step h (Click [1; 0]%nat)) 4%nat = classList h 4%nat.
Proof.
  intros h.
  pose proof (C7_listeners_do_not_interact sample_doc 500 sample_classes
                [Click [2; 1; 0]%nat]) as (Hs & _ & Hc & _).
  split; [apply Hs; discriminate|]. split; [apply Hs; discriminate|].
  split; apply Hc; discriminate.
Defined.

(** ** The hover block *)

(** C8. The hover block selects the grid items and does nothing with them:
    the script with the block and the script without it leave the browser in
    the same state with the same outcome, whatever the document, and so the
    class list of every element is the same after every sequence of events. *)
Theorem C8_hover_block_is_inert doc :
  (∀ h, hover doc h = (h, Ok tt))
  ∧ (∀ h, main_js doc h = main_js_without_hover doc h)
  ∧ ∀ w cls evs n,
      classList (run evs (loaded doc w cls)) n
      = classList (run evs (main_js_without_hover doc (fresh w cls)).1) n.
Proof.
  assert (E : ∀ h, main_js doc h = main_js_without_hover doc h).
  { intros h. unfold main_js, main_js_without_hover, bind.
    destruct (clickMenu doc h) as [h1 [[]|e]]; [|done].
    by destruct (backToTop_block doc h1) as [h2 [[]|e]]. }
  split; [done|]. split; [done|].
  intros w cls evs n. unfold loaded, load. by rewrite E.
Qed.

Example hover_sample :
  main_js sample_doc (fresh 500 sample_classes)
  = main_js_without_hover sample_doc (fresh 500 sample_classes).
Proof. by vm_compute. Qed.

(** ** The two flags of the menu *)

Lemma call_in_step mb nv bt f g :
  f ∈ [menuBtn_onclick (Some mb) (Some nv); body_click (Some mb) (Some nv);
       window_scroll bt] →
  in_step mb nv g → in_step mb nv (call f g).1.
Proof.
  unfold in_step. intros Hf Hg.
  assert (f = menuBtn_onclick (Some mb) (Some nv)
          ∨ f = body_click (Some mb) (Some nv)
          ∨ f = window_scroll bt) as [-> | [-> | ->]] by set_solver.
  - rewrite call_menuBtn_onclick. cbn [fst]. case_bool_decide.
    + rewrite !elem_of_remove_class. naive_solver.
    + rewrite !elem_of_add_class. naive_solver.
  - rewrite call_body_click. cbn [fst].
    rewrite !elem_of_remove_class. naive_solver.
  - by rewrite !call_window_scroll_frame_class.
Qed.

(** C9. From a load that finds the button without [active] and the panel
    without [nav-show], after every sequence of events, the clicks on the
    button and on the body among them, the button has [active] if and only if
    the panel has [nav-show]. *)
Theorem C9_menu_flags_in_step doc w cls mb nv evs :
  head (select doc "#headerMenu") = Some mb →
  head (select doc "#headerNav") = Some nv →
  "active" ∉ classList (loaded doc w cls) mb →
  "nav-show" ∉ classList (loaded doc w cls) nv →
  let h := run evs (loaded doc w cls) in
  "active" ∈ classList h mb ↔ "nav-show" ∈ classList h nv.
Proof.
  intros Hmb Hnav Ha Hn h.
  apply (run_invariant
           [menuBtn_onclick (Some mb) (Some nv); body_click (Some mb) (Some nv);
            window_scroll (head (select doc ".back-to-top"))]
           (in_step mb nv)).
  - intros f g. apply call_in_step.
  - unfold in_step. intros g g' E. by rewrite !(classList_ext g g' _ E).
  - intros ty. rewrite <- Hmb, <- Hnav. apply loaded_registered.
  - unfold in_step. naive_solver.
Qed.

Lemma C9_witness :
  let h := run [Click [2; 1; 0]%nat; Scroll (Qc_of_Z 250) (Some (Qc_of_Z 0));
                Click [3; 1; 0]%nat; Click [8; 2; 1; 0]%nat; Resize 1024]
               (loaded sample_doc 500 sample_classes) in
  "active" ∈ classList h 2%nat ↔ "nav-show" ∈ classList h 3%nat.
Proof.
  refine (C9_menu_flags_in_step sample_doc 500 sample_classes 2%nat 3%nat _
            eq_refl eq_refl _ _); compute_done.
Defined.

(** ** Doing it twice *)

Lemma call_window_scroll_idemp bt h :
  (call (window_scroll bt) (call (window_scroll bt) h).1).1
  = (call (window_scroll bt) h).1.
Proof.
  destruct (body_scrollTop h) as [b|] eqn:Eb.
  - destruct bt as [k|]; [|by unfold_call].
    rewrite (call_window_scroll k h b Eb). cbn [fst].
    case_decide as E; rewrite (call_window_scroll k _ b) by done; cbn [fst].
    + rewrite decide_True by done. apply add_class_idemp.
    + rewrite decide_False by done. apply remove_class_idemp.
  - rewrite (call_window_scroll_no_body bt h Eb). cbn [fst].
    by rewrite call_window_scroll_no_body.
Qed.

(** A second call of the button's handler always changes the button. *)
Lemma call_menuBtn_onclick_flips mb nv h :
  let f := menuBtn_onclick (Some mb) (Some nv) in
  "active" ∈ classList (call f (call f h).1).1 mb
  ↔ "active" ∉ classList (call f h).1 mb.
Proof.
  intros f. subst f. rewrite (call_menuBtn_onclick mb nv (call _ h).1). cbn [fst].
  case_bool_decide as A.
  - rewrite !elem_of_remove_class. naive_solver.
  - rewrite !elem_of_add_class. naive_solver.
Qed.

(** A scroll event on a page whose only window listener is the scroll
    listener. *)
Lemma step_scroll_twice bt h d b :
  window_listeners h = [scroll_listener bt] →
  step (step h (Scroll d b)) (Scroll d b) = step h (Scroll d b).
Proof.
  intros E.
  assert (E' : window_listeners (step h (Scroll d b)) = [scroll_listener bt]).
  { destruct (step_listeners h (Scroll d b)) as [_ ->]. done. }
  rewrite (step_scroll bt (step h (Scroll d b))) by done.
  rewrite (step_scroll bt h) by done.
  destruct b as [b|]; [|by rewrite !call_window_scroll_no_body].
  set (g := set_stop_propagation false (set_scrollTop d (Some b) h)).
  destruct bt as [k|]; [|by unfold_call].
  rewrite !(call_window_scroll k _ b) by done. cbn [fst]. simpl. case_decide.
  - change (set_stop_propagation false
              (set_scrollTop d (Some b)
                 (set_stop_propagation false (add_class k "back-to-top-show" g))))
      with (add_class k "back-to-top-show" g).
    by rewrite add_class_idemp.
  - change (set_stop_propagation false
              (set_scrollTop d (Some b)
                 (set_stop_propagation false (remove_class k "back-to-top-show" g))))
      with (remove_class k "back-to-top-show" g).
    by rewrite remove_class_idemp.
Qed.

Lemma step_scroll_silent h d b :
  window_listeners h = [] →
  step h (Scroll d b) = set_stop_propagation false (set_scrollTop d b h).
Proof. intros E. unfold step, fire, dispatch. simpl. by rewrite E. Qed.

Lemma loaded_scroll_twice doc w cls evs d b :
  let h := run evs (loaded doc w cls) in
  step (step h (Scroll d b)) (Scroll d b) = step h (Scroll d b).
Proof.
  intros h. destruct (run_listeners evs (loaded doc w cls)) as [_ Ew].
  fold h in Ew. destruct (loaded_listeners doc w cls) as [Hwin _].
  rewrite Hwin in Ew. case_decide.
  - by apply (step_scroll_twice (head (select doc ".back-to-top"))).
  - assert (E' : window_listeners (step h (Scroll d b)) = []).
    { destruct (step_listeners h (Scroll d b)) as [_ ->]. done. }
    by rewrite (step_scroll_silent _ d b E'), (step_scroll_silent _ d b Ew).
Qed.

Lemma menu_page_body_click_twice mb bd nav bt path h :
  menu_page mb bd nav bt h → mb ∉ path →
  step (step h (Click path)) (Click path) = step h (Click path).
Proof.
  intros Hp Hout.
  rewrite (step_click_elsewhere mb bd nav bt path (step h (Click path)))
    by (by try apply step_menu_page).
  rewrite (step_click_elsewhere mb bd nav bt path h) by done.
  case_bool_decide; [|done].
  set (g := set_stop_propagation false h).
  pose proof (call_body_click_idemp (Some mb) nav g) as Hid.
  destruct nav as [nv|]; [|done].
  rewrite !call_body_click in *. cbn [fst] in *.
  change (set_stop_propagation false
            (set_stop_propagation false
               (remove_class mb "active" (remove_class nv "nav-show" g))))
    with (remove_class mb "active" (remove_class nv "nav-show" g)).
  by rewrite Hid.
Qed.

(** C10. The body's closing listener and the scroll listener are idempotent:
    called twice in a row, the offsets being the same, each leaves the
    browser, the class lists with it, as its first call left it; so do two
    equal scroll events in a row, and two equal clicks on the body.  The
    button's handler is not: its second call changes the class list of the
    button again. *)
Theorem C10_close_and_scroll_idempotent :
  (∀ mb nav h,
     (call (body_click mb nav) (call (body_click mb nav) h).1).1
     = (call (body_click mb nav) h).1)
  ∧ (∀ bt h,
       (call (window_scroll bt) (call (window_scroll bt) h).1).1
       = (call (window_scroll bt) h).1)
  ∧ (∀ doc w cls evs d b,
       let h := run evs (loaded doc w cls) in
       step (step h (Scroll d b)) (Scroll d b) = step h (Scroll d b))
  ∧ (∀ doc w cls evs mb bd path,
       (w ≤ 770)%Z →
       head (select doc "#headerMenu") = Some mb →
       head (select doc "body") = Some bd →
       mb ≠ bd → mb ∉ path →
       let h := run evs (loaded doc w cls) in
       step (step h (Click path)) (Click path) = step h (Click path))
  ∧ (∀ mb nv h,
       let f := menuBtn_onclick (Some mb) (Some nv) in
       classList (call f (call f h).1).1 mb ≠ classList (call f h).1 mb).
Proof.
  split; [apply call_body_click_idemp|].
  split; [apply call_window_scroll_idemp|].
  split; [apply loaded_scroll_twice|].
  split.
  - intros doc w cls evs mb bd path Hw Hmb Hbd Hne Hout h.
    apply (menu_page_body_click_twice mb bd (head (select doc "#headerNav"))
             (head (select doc ".back-to-top"))); [|done].
    subst h. apply menu_page_run. by apply loaded_menu_page.
  - intros mb nv h f E. subst f.
    pose proof (call_menuBtn_onclick_flips mb nv h) as Hflip. cbv zeta in Hflip.
    rewrite E in Hflip. naive_solver.
Qed.

Lemma C10_witness :
  let h := run [Click [2; 1; 0]%nat] (loaded sample_doc 500 sample_classes) in
  step (step h (Click [3; 1; 0]%nat)) (Click [3; 1; 0]%nat)
  = step h (Click [3; 1; 0]%nat)
  ∧ step (step h (Scroll (Qc_of_Z 0) (Some (Qc_of_Z 250)))) (Scroll (Qc_of_Z 0) (Some (Qc_of_Z 250)))
    = step h (Scroll (Qc_of_Z 0) (Some (Qc_of_Z 250))).
Proof.
  intros h.
  pose proof C10_close_and_scroll_idempotent as (_ & _ & Hs & Hc & _).
  split.
  - refine (Hc sample_doc 500%Z sample_classes [Click [2; 1; 0]%nat] 2%nat 1%nat
              [3; 1; 0]%nat _ eq_refl eq_refl _ _); first [lia | compute_done].
  - apply (Hs sample_doc 500%Z sample_classes [Click [2; 1; 0]%nat]).
Defined.

(** The button's handler on the sample page: one click opens the menu, the
    second one closes it. *)
Example click_once :
  let h := run [Click [2; 1; 0]%nat] (loaded sample_doc 500 sample_classes) in
  (has h 2 "active", has h 3 "nav-show") = (true, true).
Proof. by vm_compute. Qed.

Example click_twice :
  let h := run [Click [2; 1; 0]%nat; Click [2; 1; 0]%nat]
               (loaded sample_doc 500 sample_classes) in
  (has h 2 "active", has h 3 "nav-show") = (false, false).
Proof. by vm_compute. Qed.

Example click_wide :
  let h := run [Click [2; 1; 0]%nat] (loaded sample_doc 771 sample_classes) in
  (has h 2 "active", has h 3 "nav-show") = (false, false).
Proof. by vm_compute. Qed.

Example click_button_then_body :
  let h := run [Click [2; 1; 0]%nat; Click [3; 1; 0]%nat]
               (loaded sample_doc 500 sample_classes) in
  (has h 2 "active", has h 3 "nav-show") = (false, false).
Proof. by vm_compute. Qed.

(** * Further properties of the script *)

(** ** The load *)


(** X2. The load reads the document through four selectors only: two
    documents that give the same first match for [#headerMenu], [#headerNav],
    [body] and [.back-to-top] give the same browser state and the same
    outcome, whatever they give for [.back-to-top a] and [.grid-item], whose
    results the script never uses. *)
Theorem load_reads_four_selectors doc doc' h :
  head (select doc "#headerMenu") = head (select doc' "#headerMenu") →
  head (select doc "#headerNav") = head (select doc' "#headerNav") →
  head (select doc "body") = head (select doc' "body") →
  head (select doc ".back-to-top") = head (select doc' ".back-to-top") →
  main_js doc h = main_js doc' h.
Proof.
  intros E1 E2 E3 E4.
  unfold main_js, clickMenu, backToTop_block, hover, querySelector,
    querySelectorAll, bind, ret, get.
  by rewrite E1, E2, E3, E4.
Qed.

Lemma load_reads_four_selectors_witness :
  main_js sample_doc (fresh 500 sample_classes)
  = main_js other_grid_doc (fresh 500 sample_classes).
Proof.
  apply (load_reads_four_selectors sample_doc other_grid_doc); reflexivity.
Defined.

(** ** Exceptions in the callbacks *)

Section outcomes.
Variable fs : list Fn.
Variable P : Fn * result unit → Prop.

(** Every call of a callback of [fs] gives an entry that [P] accepts. *)
Hypothesis P_call : ∀ f g, f ∈ fs → P (f, (call f g).2).

Lemma invoke_outcomes ty ls h :
  Forall (λ l, l_type l = ty → l_fn l ∈ fs) ls → Forall P (invoke ty ls h).2.
Proof.
  revert h. induction ls as [|l ls IH]; intros h Hls; simpl; [constructor|].
  inversion_clear Hls as [|? ? Hl Hls'].
  case_bool_decide as Ety; [|by apply IH].
  pose proof (P_call (l_fn l) h (Hl Ety)) as H1.
  destruct (call (l_fn l) h) as [h1 r]. pose proof (IH h1 Hls') as H2.
  destruct (invoke ty ls h1) as [h2 tr]. simpl in *. by constructor.
Qed.

Lemma propagate_outcomes ty path h :
  registered ty fs h → Forall P (propagate ty path h).2.
Proof.
  revert h. induction path as [|n path IH]; intros h Hreg; simpl.
  - destruct (stop_propagation h); [constructor|].
    apply invoke_outcomes, Hreg.
  - destruct (stop_propagation h); [constructor|].
    pose proof (invoke_outcomes ty (listeners_of h n) h (proj1 Hreg n)) as H1.
    pose proof (invoke_same_page ty (listeners_of h n) h) as S1.
    destruct (invoke ty (listeners_of h n) h) as [h1 t1]. simpl in *.
    pose proof (IH h1 (registered_same_page _ _ _ _ S1 Hreg)) as H2.
    destruct (propagate ty path h1) as [h2 t2]. simpl in *.
    by apply Forall_app.
Qed.

Lemma fire_outcomes ev h :
  registered (event_type ev) fs h → Forall P (fire ev h).2.
Proof.
  intros Hreg. destruct ev as [path|d b|w]; unfold fire, dispatch.
  - pose proof (propagate_outcomes "click" path (set_stop_propagation false h)) as H.
    destruct (propagate "click" path (set_stop_propagation false h)).
    apply H. by destruct Hreg.
  - pose proof (propagate_outcomes "scroll" []
                  (set_stop_propagation false (set_scrollTop d b h))) as H.
    destruct (propagate "scroll" [] _). apply H. by destruct Hreg.
  - pose proof (propagate_outcomes "resize" []
                  (set_stop_propagation false (set_innerWidth w h))) as H.
    destruct (propagate "resize" [] _). apply H. by destruct Hreg.
Qed.
End outcomes.

Lemma fire_scroll bt h d b :
  window_listeners h = [scroll_listener bt] →
  let g := set_stop_propagation false (set_scrollTop d b h) in
  fire (Scroll d b) h
  = (set_stop_propagation false (call (window_scroll bt) g).1,
     [(window_scroll bt, (call (window_scroll bt) g).2)]).
Proof.
  intros E g. unfold fire, dispatch. by rewrite (propagate_scroll bt).
Qed.

Lemma fire_scroll_silent h d b :
  window_listeners h = [] → (fire (Scroll d b) h).2 = [].
Proof. intros E. unfold fire, dispatch. simpl. by rewrite E. Qed.

(** X3. On a document that has the menu button, the panel and the back-to-top
    element, the callbacks throw in one case only.  Whatever the width, the
    class lists and the events so far, every callback that a click, a resize
    or a scroll of a document with a body calls is one of the three closures
    and ends well.  At a scroll of a document without a body the scroll
    listener, if the load registered it, throws a [TypeError] at
    [document.body.scrollTop], and no class list changes. *)
Theorem callbacks_end_well doc w cls mb nv bt evs :
  head (select doc "#headerMenu") = Some mb →
  head (select doc "#headerNav") = Some nv →
  head (select doc ".back-to-top") = Some bt →
  let h := run evs (loaded doc w cls) in
  (∀ ev, (∀ d, ev ≠ Scroll d None) →
     Forall (λ e, e.1 ∈ [menuBtn_onclick (Some mb) (Some nv);
                         body_click (Some mb) (Some nv);
                         window_scroll (Some bt)]
                  ∧ e.2 = Ok tt)
            (fire ev h).2)
  ∧ (∀ d, (fire (Scroll d None) h).2
          = (if decide ((load doc w cls).2 = Ok tt)
             then [(window_scroll (Some bt), Throw TypeError)] else [])
          ∧ classes (step h (Scroll d None)) = classes h).
Proof.
  intros Hmb Hnav Hbt h.
  assert (Hwin : window_listeners h
                 = if decide ((load doc w cls).2 = Ok tt)
                   then [scroll_listener (Some bt)] else []).
  { subst h. destruct (run_listeners evs (loaded doc w cls)) as [_ ->].
    rewrite <- Hbt. apply loaded_listeners. }
  assert (Hclick : registered "click"
            [menuBtn_onclick (Some mb) (Some nv); body_click (Some mb) (Some nv)] h).
  { apply run_registered. rewrite <- Hmb, <- Hnav. apply loaded_registered_click. }
  assert (Hresize : registered "resize"
            [menuBtn_onclick (Some mb) (Some nv); body_click (Some mb) (Some nv)] h).
  { apply run_registered. eapply registered_mono;
      [|by apply loaded_registered_other]. set_solver. }
  split.
  - intros ev Hev. destruct ev as [path|d [b|]|w'].
    + apply (fire_outcomes
               [menuBtn_onclick (Some mb) (Some nv); body_click (Some mb) (Some nv)]);
        [|done].
      intros f g Hf. split; [set_solver|]. simpl.
      assert (f = menuBtn_onclick (Some mb) (Some nv)
              ∨ f = body_click (Some mb) (Some nv)) as [-> | ->] by set_solver.
      * by rewrite call_menuBtn_onclick.
      * by rewrite call_body_click.
    + case_decide.
      * rewrite (fire_scroll (Some bt)) by done. cbn [snd].
        rewrite (call_window_scroll bt _ b) by done.
        repeat constructor; set_solver.
      * rewrite fire_scroll_silent by done. constructor.
    + by destruct (Hev d).
    + apply (fire_outcomes
               [menuBtn_onclick (Some mb) (Some nv); body_click (Some mb) (Some nv)]);
        [|done].
      intros f g Hf. split; [set_solver|]. simpl.
      assert (f = menuBtn_onclick (Some mb) (Some nv)
              ∨ f = body_click (Some mb) (Some nv)) as [-> | ->] by set_solver.
      * by rewrite call_menuBtn_onclick.
      * by rewrite call_body_click.
  - intros d. unfold step. case_decide.
    + rewrite (fire_scroll (Some bt)) by done. cbn [fst snd].
      by rewrite call_window_scroll_no_body.
    + rewrite fire_scroll_silent by done. split; [done|].
      unfold fire, dispatch. simpl. by rewrite Hwin.
Qed.

Lemma callbacks_end_well_witness :
  let h := run [Click [2; 1; 0]%nat] (loaded sample_doc 500 sample_classes) in
  Forall (λ e, e.1 ∈ [menuBtn_onclick (Some 2%nat) (Some 3%nat);
                      body_click (Some 2%nat) (Some 3%nat);
                      window_scroll (Some 4%nat)]
               ∧ e.2 = Ok tt)
         (fire (Scroll (Qc_of_Z 300) (Some (Qc_of_Z 0))) h).2
  ∧ (fire (Scroll (Qc_of_Z 300) None) h).2
    = [(window_scroll (Some 4%nat), Throw TypeError)].
Proof.
  intros h.
  destruct (callbacks_end_well sample_doc 500 sample_classes 2%nat 3%nat 4%nat
              [Click [2; 1; 0]%nat] eq_refl eq_refl eq_refl) as [H1 H2].
  split.
  - apply H1. intros d. discriminate.
  - exact (proj1 (H2 (Qc_of_Z 300))).
Defined.

(** ** A page without the panel *)

Lemma call_menuBtn_onclick_no_nav mb g :
  call (menuBtn_onclick (Some mb) None) g
  = (if bool_decide ("active" ∈ classList g mb)
     then remove_class mb "active" (set_stop_propagation true g)
     else set_stop_propagation true g,
     Throw TypeError).
Proof.
  unfold call, bind, stopPropagation, classList_contains, modify, get; simpl.
  rewrite classList_set_stop_propagation. by case_bool_decide.
Qed.

Lemma call_body_click_no_nav mb g :
  call (body_click mb None) g = (g, Throw TypeError).
Proof. done. Qed.

(** X4. On a document without [#headerNav] the menu is dead: from a button
    without [active], the button never gets [active], no click changes any
    class list, and every callback that a click calls throws a [TypeError],
    the button's handler at [nav.classList] before it marks the button, the
    body's listener at its first statement. *)
Theorem menu_without_panel doc w cls mb evs :
  head (select doc "#headerMenu") = Some mb →
  head (select doc "#headerNav") = None →
  "active" ∉ classList (loaded doc w cls) mb →
  let h := run evs (loaded doc w cls) in
  ("active" ∉ classList h mb)
  ∧ (∀ path, classes (step h (Click path)) = classes h)
  ∧ (∀ path, Forall (λ e, e.2 = Throw TypeError) (fire (Click path) h).2).
Proof.
  intros Hmb Hnav Hclosed h.
  assert (Hall : ∀ ty, registered ty
            [menuBtn_onclick (Some mb) None; body_click (Some mb) None;
             window_scroll (head (select doc ".back-to-top"))]
            (loaded doc w cls)).
  { intros ty. rewrite <- Hmb, <- Hnav. apply loaded_registered. }
  assert (Hclick : registered "click"
            [menuBtn_onclick (Some mb) None; body_click (Some mb) None] h).
  { apply run_registered. rewrite <- Hmb, <- Hnav. apply loaded_registered_click. }
  assert (Hh : "active" ∉ classList h mb).
  { apply (run_invariant
             [menuBtn_onclick (Some mb) None; body_click (Some mb) None;
              window_scroll (head (select doc ".back-to-top"))]
             (λ g, "active" ∉ classList g mb)); [| |done|done].
    - intros f g Hf Hg.
      assert (f = menuBtn_onclick (Some mb) None ∨ f = body_click (Some mb) None
              ∨ f = window_scroll (head (select doc ".back-to-top")))
        as [-> | [-> | ->]] by set_solver.
      + rewrite call_menuBtn_onclick_no_nav. cbn [fst].
        by rewrite bool_decide_false.
      + done.
      + by rewrite call_window_scroll_frame_class.
    - intros g g' E. by rewrite (classList_ext g g' mb E). }
  split; [done|]. split.
  - intros path.
    apply (step_invariant [menuBtn_onclick (Some mb) None; body_click (Some mb) None]
             (λ g, classes g = classes h)); [| |done|done].
    + intros f g Hf Hg.
      assert (f = menuBtn_onclick (Some mb) None ∨ f = body_click (Some mb) None)
        as [-> | ->] by set_solver; [|done].
      rewrite call_menuBtn_onclick_no_nav. cbn [fst].
      rewrite bool_decide_false; [done|].
      by rewrite (classList_ext h g mb Hg).
    + intros g g' ->. done.
  - intros path.
    apply (fire_outcomes [menuBtn_onclick (Some mb) None; body_click (Some mb) None]
             (λ e, e.2 = Throw TypeError) ); [|done].
    intros f g Hf.
    assert (f = menuBtn_onclick (Some mb) None ∨ f = body_click (Some mb) None)
      as [-> | ->] by set_solver; [|done].
    by rewrite call_menuBtn_onclick_no_nav.
Qed.

Lemma menu_without_panel_witness :
  let h := run [Click [2; 1; 0]%nat; Click [1; 0]%nat; Click [8; 2; 1; 0]%nat]
               (loaded no_nav_doc 500 sample_classes) in
  ("active" ∉ classList h 2%nat)
  ∧ Forall (λ e, e.2 = Throw TypeError) (fire (Click [2; 1; 0]%nat) h).2.
Proof.
  intros h.
  assert (Hclosed : "active" ∉ classList (loaded no_nav_doc 500 sample_classes) 2%nat)
    by compute_done.
  destruct (menu_without_panel no_nav_doc 500 sample_classes 2%nat
              [Click [2; 1; 0]%nat; Click [1; 0]%nat; Click [8; 2; 1; 0]%nat]
              eq_refl eq_refl Hclosed) as (H1 & _ & H3).
  exact (conj H1 (H3 [2; 1; 0]%nat)).
Defined.

(** ** Sequences of clicks *)

(** A click on the button turns the button's flag over and gives the panel
    the same flag, whether the two elements are one or two. *)
Lemma step_click_menuBtn_flags mb bd nv bt pre post h :
  mb ≠ bd → menu_page mb bd (Some nv) bt h → mb ∉ pre → bd ∉ pre →
  let h1 := step h (Click (pre ++ mb :: post)) in
  ("active" ∈ classList h1 mb ↔ "active" ∉ classList h mb)
  ∧ ("nav-show" ∈ classList h1 nv ↔ "active" ∉ classList h mb).
Proof.
  intros Hbd Hp Hpre Hpre' h1. subst h1. unfold step.
  rewrite (step_click_menuBtn mb bd (Some nv) bt) by done.
  rewrite call_menuBtn_onclick. cbn [fst].
  rewrite classList_set_stop_propagation.
  case_bool_decide as A; rewrite !classList_set_stop_propagation.
  - rewrite !elem_of_remove_class. naive_solver.
  - rewrite !elem_of_add_class. naive_solver.
Qed.

(** X5. At a width of at most 770, after [n] clicks on the button in a row the
    button has [active] as at the start when [n] is even and the other way
    round when [n] is odd; after the first of them the panel has [nav-show]
    exactly when the button has [active], also when the two did not agree at
    the start. *)
Theorem clicks_on_button_alternate doc w cls mb nv bd evs pre post n :
  (w ≤ 770)%Z →
  head (select doc "#headerMenu") = Some mb →
  head (select doc "#headerNav") = Some nv →
  head (select doc "body") = Some bd →
  mb ≠ bd → mb ∉ pre → bd ∉ pre →
  let h := run evs (loaded doc w cls) in
  let hn := run (replicate n (Click (pre ++ mb :: post))) h in
  ("active" ∈ classList hn mb
   ↔ if Nat.even n then "active" ∈ classList h mb else "active" ∉ classList h mb)
  ∧ (0 < n → "nav-show" ∈ classList hn nv ↔ "active" ∈ classList hn mb).
Proof.
  intros Hw Hmb Hnav Hbody Hbd Hpre1 Hpre2 h hn.
  assert (Hp : menu_page mb bd (Some nv) (head (select doc ".back-to-top")) h).
  { subst h. apply menu_page_run. rewrite <- Hnav. by apply loaded_menu_page. }
  subst hn. induction n as [|n [IH1 IH2]].
  - split; [done|lia].
  - replace (replicate (S n) (Click (pre ++ mb :: post)))
      with (replicate n (Click (pre ++ mb :: post)) ++ [Click (pre ++ mb :: post)])
      by (by rewrite <- replicate_cons_app).
    rewrite run_snoc.
    destruct (step_click_menuBtn_flags mb bd nv _ pre post
                (run (replicate n (Click (pre ++ mb :: post))) h) Hbd
                (menu_page_run _ _ _ _ _ _ Hp) Hpre1 Hpre2) as [F1 F2].
    rewrite Nat.even_succ, <- Nat.negb_even.
    split; [|intros _; by rewrite F1, F2].
    rewrite F1, IH1. destruct (Nat.even n); simpl; [done|].
    destruct (decide ("active" ∈ classList h mb)); naive_solver.
Qed.

Lemma clicks_on_button_alternate_witness :
  let h := loaded sample_doc 500 open_panel_classes in
  let h3 := run (replicate 3 (Click [2; 1; 0]%nat)) h in
  "active" ∈ classList h3 2%nat ∧ "nav-show" ∈ classList h3 3%nat.
Proof.
  intros h h3.
  assert (Hclosed : "active" ∉ classList h 2%nat) by compute_done.
  assert (Hne : 2%nat ≠ 1%nat) by lia.
  assert (Hpre1 : 2%nat ∉ @nil node) by compute_done.
  assert (Hpre2 : 1%nat ∉ @nil node) by compute_done.
  destruct (clicks_on_button_alternate sample_doc 500 open_panel_classes
              2%nat 3%nat 1%nat [] [] [1; 0]%nat 3 ltac:(lia)
              eq_refl eq_refl eq_refl Hne Hpre1 Hpre2) as [H1 H2].
  assert (H3 : "active" ∈ classList h3 2%nat) by (apply H1; exact Hclosed).
  split; [exact H3|]. apply H2; [lia|exact H3].
Defined.

(** X9. At a width of at most 770, whatever the class lists are, a click on
    the body followed by a click on the button leaves the menu open: the
    button has [active] and the panel has [nav-show]. *)
Theorem body_then_button_opens doc w cls mb nv bd evs path pre post :
  (w ≤ 770)%Z →
  head (select doc "#headerMenu") = Some mb →
  head (select doc "#headerNav") = Some nv →
  head (select doc "body") = Some bd →
  bd ∈ path → mb ∉ path → mb ∉ pre → bd ∉ pre →
  let h := run evs (loaded doc w cls) in
  let h2 := run [Click path; Click (pre ++ mb :: post)] h in
  "active" ∈ classList h2 mb ∧ "nav-show" ∈ classList h2 nv.
Proof.
  intros Hw Hmb Hnav Hbody Hin Hout Hpre1 Hpre2 h h2.
  assert (Hne : mb ≠ bd) by (intros ->; done).
  assert (Hp : menu_page mb bd (Some nv) (head (select doc ".back-to-top")) h).
  { subst h. apply menu_page_run. rewrite <- Hnav. by apply loaded_menu_page. }
  assert (Hclosed : "active" ∉ classList (step h (Click path)) mb).
  { rewrite (step_click_elsewhere mb bd (Some nv) _ path h Hp Hout).
    rewrite bool_decide_true by done. rewrite classList_set_stop_propagation.
    apply body_click_closes. }
  destruct (step_click_menuBtn_flags mb bd nv _ pre post (step h (Click path)) Hne
              (step_menu_page _ _ _ _ _ _ Hp) Hpre1 Hpre2) as [F1 F2].
  subst h2. change (run [Click path; Click (pre ++ mb :: post)] h)
    with (step (step h (Click path)) (Click (pre ++ mb :: post))).
  by rewrite F1, F2.
Qed.

Lemma body_then_button_opens_witness :
  let h := run [Click [2; 1; 0]%nat] (loaded sample_doc 500 open_panel_classes) in
  let h2 := run [Click [3; 1; 0]%nat; Click [2; 1; 0]%nat] h in
  "active" ∈ classList h2 2%nat ∧ "nav-show" ∈ classList h2 3%nat.
Proof.
  refine (body_then_button_opens sample_doc 500 open_panel_classes
            2%nat 3%nat 1%nat [Click [2; 1; 0]%nat] [3; 1; 0]%nat [] [1; 0]%nat
            _ eq_refl eq_refl eq_refl _ _ _ _); first [lia | compute_done].
Defined.

(** ** Scrolls among other events *)

(** On the loaded page an event that is not a scroll leaves the class
    [back-to-top-show] of every element as it is. *)
Lemma step_other_back_to_top doc w cls evs ev n :
  event_type ev ≠ "scroll" →
  let h := run evs (loaded doc w cls) in
  "back-to-top-show" ∈ classList (step h ev) n
  ↔ "back-to-top-show" ∈ classList h n.
Proof.
  intros Hty h.
  set (fs := [menuBtn_onclick (head (select doc "#headerMenu"))
                              (head (select doc "#headerNav"));
              body_click (head (select doc "#headerMenu"))
                         (head (select doc "#headerNav"))]).
  assert (Hreg : registered (event_type ev) fs h).
  { apply run_registered. destruct ev as [path|d b|w']; [|done|].
    - apply loaded_registered_click.
    - eapply registered_mono; [|by apply loaded_registered_other]. set_solver. }
  apply (step_invariant fs
           (λ g, "back-to-top-show" ∈ classList g n
                 ↔ "back-to-top-show" ∈ classList h n)); [| |done|done].
  - intros f g Hf Hg. by rewrite (call_click_frame_class f _ _ g n) by done.
  - intros g g' E. by rewrite (classList_ext g g' n E).
Qed.

(** X6. The last scroll decides: after a scroll event of a document that has
    a body then, followed by any clicks and resizes, the back-to-top element
    has [back-to-top-show] if and only if the offset of that scroll was above
    200. *)
Theorem last_scroll_decides doc w cls bt evs (d b : Qc) evs' :
  (load doc w cls).2 = Ok tt →
  head (select doc ".back-to-top") = Some bt →
  Forall (λ ev, event_type ev ≠ "scroll") evs' →
  let h := run (evs ++ Scroll d (Some b) :: evs') (loaded doc w cls) in
  "back-to-top-show" ∈ classList h bt ↔ (Qc_of_Z 200 < Math_max d b)%Qc.
Proof.
  intros Hok Hbt Hevs' h. subst h.
  induction evs' as [|ev evs' IH] using rev_ind.
  - rewrite run_snoc, (step_scroll (Some bt)).
    2:{ destruct (run_listeners evs (loaded doc w cls)) as [_ ->].
        rewrite <- Hbt. by apply loaded_ok_window_listeners. }
    rewrite (call_window_scroll bt _ b) by done. simpl.
    rewrite classList_set_stop_propagation.
    case_decide as E.
    + rewrite elem_of_add_class. naive_solver.
    + rewrite elem_of_remove_class. naive_solver.
  - apply Forall_app in Hevs' as [Hevs' Hev]. rewrite Forall_singleton in Hev.
    rewrite app_comm_cons, app_assoc, run_snoc.
    rewrite (step_other_back_to_top doc w cls _ ev bt Hev).
    by apply IH.
Qed.

Lemma last_scroll_decides_witness :
  "back-to-top-show"
    ∈ classList (run ([Scroll (Qc_of_Z 10) (Some (Qc_of_Z 0))]
                      ++ Scroll (Qc_of_Z 0) (Some (Qc_of_Z 450))
                         :: [Click [2; 1; 0]%nat; Resize 1024; Click [4; 1; 0]%nat])
                     (loaded sample_doc 500 sample_classes)) 4%nat.
Proof.
  apply (last_scroll_decides sample_doc 500 sample_classes 4%nat
           [Scroll (Qc_of_Z 10) (Some (Qc_of_Z 0))] (Qc_of_Z 0) (Qc_of_Z 450)
           [Click [2; 1; 0]%nat; Resize 1024; Click [4; 1; 0]%nat]
           eq_refl eq_refl).
  - repeat constructor; discriminate.
  - reflexivity.
Defined.

(** ** Clicks beside the menu *)

Lemma propagate_silent_path ty path h :
  stop_propagation h = false →
  (∀ n, n ∈ path → invoke ty (listeners_of h n) h = (h, [])) →
  invoke ty (window_listeners h) h = (h, []) →
  propagate ty path h = (h, []).
Proof.
  intros Hs Hn Hw. induction path as [|n path IH].
  - simpl. by rewrite Hs.
  - rewrite propagate_silent; [|done|apply Hn, elem_of_cons; by left].
    apply IH. intros k Hk. apply Hn, elem_of_cons. by right.
Qed.

(** X7. At a width of at most 770, a click whose path goes neither through
    the button nor through the body, as a click on the root element beside
    the body, calls no callback and changes no class list: it does not close
    an open menu. *)
Theorem click_beside_body_is_silent doc w cls mb bd evs path :
  (w ≤ 770)%Z →
  head (select doc "#headerMenu") = Some mb →
  head (select doc "body") = Some bd →
  mb ∉ path → bd ∉ path →
  let h := run evs (loaded doc w cls) in
  (fire (Click path) h).2 = [] ∧ classes (step h (Click path)) = classes h.
Proof.
  intros Hw Hmb Hbody Hout1 Hout2 h.
  assert (Hsilent : ∀ n, n ∈ path → listeners_of h n = []).
  { intros n Hn. unfold listeners_of. subst h.
    destruct (run_listeners evs (loaded doc w cls)) as [-> _].
    unfold loaded. rewrite (load_narrow _ _ _ mb bd) by done. simpl.
    rewrite lookup_insert_ne by (intros ->; done).
    by rewrite lookup_singleton_ne by (intros ->; done). }
  assert (Hwin : invoke "click" (window_listeners h) (set_stop_propagation false h)
                 = (set_stop_propagation false h, [])).
  { subst h. destruct (run_listeners evs (loaded doc w cls)) as [_ ->].
    unfold loaded. by rewrite (load_narrow _ _ _ mb bd). }
  unfold step, fire, dispatch.
  rewrite propagate_silent_path; [done|done| |done].
  intros n Hn. change (listeners_of (set_stop_propagation false h) n)
    with (listeners_of h n). by rewrite Hsilent.
Qed.

Lemma click_beside_body_is_silent_witness :
  let h := run [Click [2; 1; 0]%nat] (loaded sample_doc 500 sample_classes) in
  "active" ∈ classList h 2%nat
  ∧ classes (step h (Click [0]%nat)) = classes h.
Proof.
  intros h. split; [compute_done|].
  refine (proj2 (click_beside_body_is_silent sample_doc 500 sample_classes
                   2%nat 1%nat [Click [2; 1; 0]%nat] [0%nat]
                   _ eq_refl eq_refl _ _)); first [lia | compute_done].
Defined.

(** ** The classes of the theme *)

(** X8. The script owns three classes on three elements and touches nothing
    else: after every sequence of events, every element has every class
    other than [active], [nav-show] and [back-to-top-show] exactly when the
    markup gave it, and an element that is not the button, the panel or the
    back-to-top element has the class list of the markup. *)
Theorem other_classes_are_kept doc w cls evs n :
  let h := run evs (loaded doc w cls) in
  (∀ c, c ≠ "active" → c ≠ "nav-show" → c ≠ "back-to-top-show" →
        c ∈ classList h n ↔ c ∈ default ∅ (cls !! n))
  ∧ (head (select doc "#headerMenu") ≠ Some n →
     head (select doc "#headerNav") ≠ Some n →
     head (select doc ".back-to-top") ≠ Some n →
     classList h n = default ∅ (cls !! n)).
Proof.
  intros h.
  set (mb := head (select doc "#headerMenu")).
  set (nav := head (select doc "#headerNav")).
  set (bt := head (select doc ".back-to-top")).
  assert (E0 : classList (loaded doc w cls) n = default ∅ (cls !! n)).
  { unfold classList. by rewrite load_classes. }
  rewrite <- E0. split.
  - apply (run_invariant [menuBtn_onclick mb nav; body_click mb nav; window_scroll bt]
             (λ g, ∀ c, c ≠ "active" → c ≠ "nav-show" → c ≠ "back-to-top-show" →
                        c ∈ classList g n ↔ c ∈ classList (loaded doc w cls) n));
      [| |intros ty; apply loaded_registered|done].
    + intros f g Hf Hg c Hc1 Hc2 Hc3. rewrite <- (Hg c) by done.
      assert (f ∈ [menuBtn_onclick mb nav; body_click mb nav] ∨ f = window_scroll bt)
        as [Hf' | ->] by set_solver.
      * by apply (call_click_frame_class f mb nav).
      * by apply call_window_scroll_frame_class.
    + intros g g' E. by rewrite (classList_ext g g' n E).
  - intros Hmb Hnav Hbt.
    apply (run_invariant [menuBtn_onclick mb nav; body_click mb nav; window_scroll bt]
             (λ g, classList g n = classList (loaded doc w cls) n));
      [| |intros ty; apply loaded_registered|done].
    + intros f g Hf <-.
      assert (f ∈ [menuBtn_onclick mb nav; body_click mb nav] ∨ f = window_scroll bt)
        as [Hf' | ->] by set_solver.
      * by apply (call_click_frame f mb nav).
      * by apply call_window_scroll_frame.
    + intros g g' E. by rewrite (classList_ext g g' n E).
Qed.

Lemma other_classes_are_kept_witness :
  let h := run [Click [2; 1; 0]%nat; Scroll (Qc_of_Z 300) (Some (Qc_of_Z 0))]
               (loaded sample_doc 500 sample_classes) in
  ("header-nav" ∈ classList h 3%nat ↔ "header-nav" ∈ default ∅ (sample_classes !! 3%nat))
  ∧ classList h 1%nat = default ∅ (sample_classes !! 1%nat).
Proof.
  intros h.
  destruct (other_classes_are_kept sample_doc 500 sample_classes
              [Click [2; 1; 0]%nat; Scroll (Qc_of_Z 300) (Some (Qc_of_Z 0))] 3%nat)
    as [H1 _].
  destruct (other_classes_are_kept sample_doc 500 sample_classes
              [Click [2; 1; 0]%nat; Scroll (Qc_of_Z 300) (Some (Qc_of_Z 0))] 1%nat)
    as [_ H2].
  split; [apply H1; discriminate|apply H2; discriminate].
Defined.

(** * The loop of the region version vector *)

Section region_version_vector.
Import RegionVersionVector.

Lemma body_Testable version flag lv :
  body TestableRegionVersionVector version flag lv
  = (Z.max lv version, if (lv <? version)%Z then false else flag).
Proof.
  unfold body, compareAndSetVersion, compareAndSet.
  destruct (Z.ltb_spec lv version).
  - rewrite Z.eqb_refl. simpl. by rewrite Z.max_r by lia.
  - by rewrite Z.max_l by lia.
Qed.

Lemma body_VersionRace version flag lv :
  body VersionRaceConditionRegionVersionVector version flag lv
  = (Z.max lv version, if (lv <? version)%Z then true else flag).
Proof.
  unfold body, compareAndSetVersion, compareAndSet.
  destruct (Z.ltb_spec lv version).
  - rewrite Z.eqb_refl. simpl. by rewrite Z.max_r by lia.
  - by rewrite Z.max_l by lia.
Qed.

(** Once the version is stored and the flag is set, the loop of lines 115-123
    keeps both. *)
Lemma do_while_stuck version fuel :
  do_while (body VersionRaceConditionRegionVersionVector version) fuel true version
  = None.
Proof.
  induction fuel as [|fuel IH]; [done|]. simpl.
  rewrite body_VersionRace, Z.ltb_irrefl, Z.max_id. exact IH.
Qed.

(** X10. With one thread, [updateLocalVersion] returns after one pass and
    leaves in [localVersion] the greater of the old value and [version]: it
    takes a greater version, keeps a greater old one and does nothing for
    the same one.  The fixed method does the same. *)
Theorem updateLocalVersion_one_thread (n : nat) (version lv : Z) :
  updateLocalVersion (S n) TestableRegionVersionVector version lv
  = Some (Z.max lv version)
  ∧ updateLocalVersion_fixed (S n) TestableRegionVersionVector version lv
    = Some (Z.max lv version).
Proof.
  unfold updateLocalVersion, updateLocalVersion_fixed, body_fixed. simpl.
  rewrite body_Testable. by destruct (lv <? version)%Z.
Qed.

(** X11. When the compare-and-set stores the version and reports a failure,
    as when another thread has won the race, [updateLocalVersion] of lines
    115-123 never returns for a version above the old one, however much fuel
    it gets, although [localVersion] has the new version from the first pass
    on; for a version that is not above the old one it returns at once and
    changes nothing. *)
Theorem updateLocalVersion_hangs (version lv : Z) :
  ((lv < version)%Z →
   (∀ fuel, updateLocalVersion fuel VersionRaceConditionRegionVersionVector
              version lv = None)
   ∧ ∀ n, passes VersionRaceConditionRegionVersionVector version (S n) false lv
          = (version, true))
  ∧ ((version ≤ lv)%Z →
     ∀ n, updateLocalVersion (S n) VersionRaceConditionRegionVersionVector
            version lv = Some lv).
Proof.
  split.
  - intros Hlt. split.
    + intros [|fuel]; [done|]. unfold updateLocalVersion. simpl.
      rewrite body_VersionRace, (proj2 (Z.ltb_lt lv version) Hlt).
      rewrite Z.max_r by lia. apply do_while_stuck.
    + intros n. simpl.
      rewrite body_VersionRace, (proj2 (Z.ltb_lt lv version) Hlt).
      rewrite Z.max_r by lia. induction n as [|n IH]; [done|]. simpl.
      by rewrite body_VersionRace, Z.ltb_irrefl, Z.max_id.
  - intros Hle n. unfold updateLocalVersion. simpl.
    rewrite body_VersionRace, (proj2 (Z.ltb_ge lv version) Hle).
    by rewrite Z.max_l by lia.
Qed.

Lemma updateLocalVersion_hangs_witness :
  updateLocalVersion 1000 VersionRaceConditionRegionVersionVector 2 1 = None
  ∧ passes VersionRaceConditionRegionVersionVector 2 1 false 1 = (2%Z, true)
  ∧ updateLocalVersion 1 VersionRaceConditionRegionVersionVector 1 2 = Some 2%Z.
Proof.
  destruct (updateLocalVersion_hangs 2 1) as [Hhang _].
  destruct (updateLocalVersion_hangs 1 2) as [_ Hret].
  destruct (Hhang ltac:(lia)) as [H1 H2].
  exact (conj (H1 1000%nat) (conj (H2 0%nat) (Hret ltac:(lia) 0%nat))).
Defined.

(** X12. The fixed method of lines 218-227 returns under the same
    compare-and-set: for a version above the old one it needs its second
    pass, and returns from it with the new version in [localVersion]; in
    every case it returns within two passes with the greater of the two. *)
Theorem updateLocalVersion_fixed_returns (n : nat) (version lv : Z) :
  updateLocalVersion_fixed (S (S n)) VersionRaceConditionRegionVersionVector
    version lv = Some (Z.max lv version)
  ∧ ((lv < version)%Z →
     updateLocalVersion_fixed 1 VersionRaceConditionRegionVersionVector
       version lv = None).
Proof.
  unfold updateLocalVersion_fixed, body_fixed. split.
  - cbn [do_while]. rewrite body_VersionRace.
    destruct (Z.ltb_spec lv version) as [Hlt|Hge]; [|done].
    rewrite body_VersionRace, Z.max_r by lia.
    by rewrite Z.ltb_irrefl, Z.max_id.
  - intros Hlt. cbn [do_while].
    by rewrite body_VersionRace, (proj2 (Z.ltb_lt lv version) Hlt).
Qed.

Lemma updateLocalVersion_fixed_returns_witness :
  updateLocalVersion_fixed 2 VersionRaceConditionRegionVersionVector 2 1 = Some 2%Z
  ∧ updateLocalVersion_fixed 1 VersionRaceConditionRegionVersionVector 2 1 = None.
Proof.
  destruct (updateLocalVersion_fixed_returns 0 2 1) as [H1 H2].
  exact (conj H1 (H2 ltac:(lia))).
Defined.

End region_version_vector.
